(** * APK-Editor-MCP-Server: the smali text editor, the smali parser and the
      dex-editor process bridge

    Shallow embedding of
    - [src/mcp-server/apk_editor_mcp/smali_utils.py]
      ([parse_smali_class], [get_method_from_smali], [replace_method_in_smali],
      [insert_smali_code]);
    - [src/apk_editor_mcp/fast_dex.py]
      ([FastDexEditor._ensure_process], [FastDexEditor._send_command]).

    A Python [str] is a sequence of Unicode code points: it is modelled as a
    list of code points [N].  Python integers are unbounded: the brace
    counter is a [Z], line indices are [nat]. *)

From Stdlib Require Import Strings.Ascii Strings.String.
From Stdlib Require Import List Bool Arith ZArith NArith Lia.
Import ListNotations.

Set Implicit Arguments.

(** ** Python strings *)

Module PyStr.

Definition char := N.
Bind Scope N_scope with char.
Definition pystr := list char.

(** An ASCII literal of the source, as a sequence of code points. *)
Definition py (s : String.string) : pystr :=
  map N_of_ascii (String.list_ascii_of_string s).
Arguments py s%_string.

Definition NL : char := 10%N.

Fixpoint str_eqb (a b : pystr) : bool :=
  match a, b with
  | [], [] => true
  | x :: a', y :: b' => N.eqb x y && str_eqb a' b'
  | _, _ => false
  end.

(** [s.startswith(p)] *)
Fixpoint startswith (s p : pystr) : bool :=
  match p, s with
  | [], _ => true
  | x :: p', y :: s' => N.eqb x y && startswith s' p'
  | _ :: _, [] => false
  end.

(** [sub in s] *)
Fixpoint contains (sub s : pystr) : bool :=
  startswith s sub ||
  match s with
  | [] => false
  | _ :: s' => contains sub s'
  end.

(** [str.isspace] on one code point (CPython's [_PyUnicode_IsWhitespace]). *)
Definition isspace (c : char) : bool :=
  ((9 <=? c) && (c <=? 13) || (28 <=? c) && (c <=? 32) ||
   (c =? 133) || (c =? 160) || (c =? 5760) ||
   (8192 <=? c) && (c <=? 8202) || (c =? 8232) || (c =? 8233) ||
   (c =? 8239) || (c =? 8287) || (c =? 12288))%N.

Fixpoint lstrip (s : pystr) : pystr :=
  match s with
  | [] => []
  | c :: s' => if isspace c then lstrip s' else s
  end.

Definition rstrip (s : pystr) : pystr := rev (lstrip (rev s)).

(** [s.strip()] *)
Definition strip (s : pystr) : pystr := rstrip (lstrip s).

(** [s.split("\n")]: one piece more than there are newlines. *)
Fixpoint split_nl (s : pystr) : list pystr :=
  match s with
  | [] => [[]]
  | c :: s' =>
      if N.eqb c NL then [] :: split_nl s'
      else match split_nl s' with
           | l :: ls => (c :: l) :: ls
           | [] => [[c]]
           end
  end.

(** ["\n".join(ls)] *)
Fixpoint join_nl (ls : list pystr) : pystr :=
  match ls with
  | [] => []
  | [l] => l
  | l :: ls' => l ++ NL :: join_nl ls'
  end.

(** [l.insert(-1, x)]: before the last element (at the front of an empty
    list). *)
Definition insert_before_last (A : Type) (x : A) (l : list A) : list A :=
  firstn (length l - 1) l ++ x :: skipn (length l - 1) l.

End PyStr.
Import PyStr.

(** ** MethodEditor: [smali_utils.py], lines 98-248 *)

Module MethodEditor.

Definition DOT_METHOD : pystr := py ".method".
Definition END_METHOD : pystr := py ".end method".
Definition DOT_LOCALS : pystr := py ".locals".

(** The test [".method" in line and method_name in line] of the three
    scans. *)
Definition is_target (method_name line : pystr) : bool :=
  contains DOT_METHOD line && contains method_name line.

(** [line.strip() == ".end method"] *)
Definition is_end (line : pystr) : bool := str_eqb (strip line) END_METHOD.

(** [line.strip().startswith(".locals")] *)
Definition is_locals (line : pystr) : bool := startswith (strip line) DOT_LOCALS.

Definition not_found (method_name : pystr) : pystr :=
  py "Method not found: " ++ method_name.

(** The dict returned by [get_method_from_smali]; the keys [start_line] and
    [end_line] exist only in the success dict. *)
Record MethodResult := {
  mr_success : bool;
  mr_method : pystr;
  mr_start_line : option nat;
  mr_end_line : option nat;
  mr_error : pystr
}.

(** The dict returned by [replace_method_in_smali] and [insert_smali_code]. *)
Record EditResult := {
  success : bool;
  content : pystr;
  error : pystr
}.

(** The [for i, line in enumerate(lines)] loop of [get_method_from_smali];
    [Some] is the [return] inside the loop. *)
Fixpoint get_loop (method_name : pystr) (lines : list pystr) (i : nat)
    (in_method : bool) (method_lines : list pystr) (start_line : nat)
    : option MethodResult :=
  match lines with
  | [] => None
  | line :: rest =>
      if is_target method_name line then
        get_loop method_name rest (S i) true [line] (i + 1)
      else if in_method then
        let method_lines := method_lines ++ [line] in
        if is_end line then
          Some {| mr_success := true;
                  mr_method := join_nl method_lines;
                  mr_start_line := Some start_line;
                  mr_end_line := Some (i + 1);
                  mr_error := [] |}
        else get_loop method_name rest (S i) in_method method_lines start_line
      else get_loop method_name rest (S i) in_method method_lines start_line
  end.

Definition get_method_from_smali (content method_name : pystr) : MethodResult :=
  let lines := split_nl content in
  match get_loop method_name lines 0 false [] 0 with
  | Some r => r
  | None => {| mr_success := false;
               mr_method := [];
               mr_start_line := None;
               mr_end_line := None;
               mr_error := not_found method_name |}
  end.

(** The [for line in lines] loop of [replace_method_in_smali]; returns
    [(result_lines, method_replaced)]. *)
Fixpoint replace_loop (method_name new_method_body : pystr)
    (lines result_lines : list pystr) (in_method method_replaced : bool)
    : list pystr * bool :=
  match lines with
  | [] => (result_lines, method_replaced)
  | line :: rest =>
      if is_target method_name line then
        replace_loop method_name new_method_body rest
          (result_lines ++ [new_method_body]) true true
      else if in_method then
        replace_loop method_name new_method_body rest result_lines
          (if is_end line then false else in_method) method_replaced
      else
        replace_loop method_name new_method_body rest
          (result_lines ++ [line]) in_method method_replaced
  end.

Definition replace_method_in_smali (content method_name new_method_body : pystr)
    : EditResult :=
  let lines := split_nl content in
  let '(result_lines, method_replaced) :=
    replace_loop method_name new_method_body lines [] false false in
  if negb method_replaced then
    {| success := false; content := []; error := not_found method_name |}
  else
    {| success := true; content := join_nl result_lines; error := [] |}.

(** The [for i, line in enumerate(lines)] loop of [insert_smali_code];
    returns [(result_lines, method_found)]. *)
Fixpoint insert_loop (method_name code_to_insert position : pystr)
    (lines result_lines : list pystr) (in_method method_found : bool)
    : list pystr * bool :=
  match lines with
  | [] => (result_lines, method_found)
  | line :: rest =>
      let result_lines := result_lines ++ [line] in
      if is_target method_name line then
        insert_loop method_name code_to_insert position rest result_lines
          true true
      else if in_method then
        if str_eqb position (py "start") && is_locals line then
          insert_loop method_name code_to_insert position rest
            (result_lines ++ [code_to_insert]) in_method method_found
        else if is_end line then
          insert_loop method_name code_to_insert position rest
            (if str_eqb position (py "end")
             then insert_before_last code_to_insert result_lines
             else result_lines)
            false method_found
        else
          insert_loop method_name code_to_insert position rest result_lines
            in_method method_found
      else
        insert_loop method_name code_to_insert position rest result_lines
          in_method method_found
  end.

Definition insert_smali_code (content method_name code_to_insert position : pystr)
    : EditResult :=
  let lines := split_nl content in
  let '(result_lines, method_found) :=
    insert_loop method_name code_to_insert position lines [] false false in
  if negb method_found then
    {| success := false; content := []; error := not_found method_name |}
  else
    {| success := true; content := join_nl result_lines; error := [] |}.

End MethodEditor.
Import MethodEditor.

(** ** A backtracking matcher for the fragment of Python's [re] that
    [parse_smali_class] uses

    The six patterns are sequences of literals, single-character classes,
    quantified single-character classes ([+], [*], [+?], [*?]) and groups
    that are neither nested nor quantified.  The matcher explores the
    alternatives in the order of a backtracking engine: a greedy quantifier
    tries the longest repetition first, a lazy one the shortest. *)

Module Re.

Inductive re :=
| Eps
| Chr (p : char -> bool)
| Seq (r1 r2 : re)
| Many (greedy : bool) (min : nat) (p : char -> bool)
| Group (r : re).

Section Quantifier.
Variable A : Type.
Variable p : char -> bool.

Fixpoint many_lazy (min : nat) (s : pystr) (k : pystr -> option A)
    {struct s} : option A :=
  match min with
  | O =>
      match k s with
      | Some r => Some r
      | None =>
          match s with
          | c :: s' => if p c then many_lazy 0 s' k else None
          | [] => None
          end
      end
  | S m =>
      match s with
      | c :: s' => if p c then many_lazy m s' k else None
      | [] => None
      end
  end.

Fixpoint many_greedy (min : nat) (s : pystr) (k : pystr -> option A)
    {struct s} : option A :=
  let stop := match min with O => k s | S _ => None end in
  match s with
  | c :: s' =>
      if p c then
        match many_greedy (pred min) s' k with
        | Some r => Some r
        | None => stop
        end
      else stop
  | [] => stop
  end.
End Quantifier.

(** Match [r] at the front of [s]; [caps] are the groups closed so far, in
    the order of their closing; [k] is the rest of the pattern. *)
Fixpoint match_here (r : re) (s : pystr) (caps : list pystr)
    (k : pystr -> list pystr -> option (list pystr)) : option (list pystr) :=
  match r with
  | Eps => k s caps
  | Chr p =>
      match s with
      | c :: s' => if p c then k s' caps else None
      | [] => None
      end
  | Seq r1 r2 => match_here r1 s caps (fun s' caps' => match_here r2 s' caps' k)
  | Many greedy min p =>
      (if greedy then many_greedy p min s else many_lazy p min s)
        (fun s' => k s' caps)
  | Group r1 =>
      match_here r1 s caps
        (fun s' caps' => k s' (caps' ++ [firstn (length s - length s') s]))
  end.

(** [re.search(r, s)]: the leftmost match; the result lists [group(1)],
    [group(2)], ... *)
Fixpoint search (r : re) (s : pystr) : option (list pystr) :=
  match match_here r s [] (fun _ caps => Some caps) with
  | Some caps => Some caps
  | None =>
      match s with
      | [] => None
      | _ :: s' => search r s'
      end
  end.

Definition only (c : char) : char -> bool := N.eqb c.
Definition except (c : char) : char -> bool := fun x => negb (N.eqb c x).

(** [.] (without DOTALL) *)
Definition dot : char -> bool := except NL.

Fixpoint Lit (s : pystr) : re :=
  match s with
  | [] => Eps
  | c :: s' => Seq (Chr (only c)) (Lit s')
  end.

Fixpoint seq (rs : list re) : re :=
  match rs with
  | [] => Eps
  | r :: rs' => Seq r (seq rs')
  end.

Definition plus := Many true 1.
Definition star := Many true 0.
Definition plus_lazy := Many false 1.
Definition star_lazy := Many false 0.

End Re.

(** ** SmaliDocumentModel: [parse_smali_class], [smali_utils.py] lines 7-95 *)

Module Parser.
Import Re.

Record Field := {
  f_access : pystr;
  f_name : pystr;
  f_type : pystr
}.

(** [current_method] as the method-start branch builds it. *)
Record OpenMethod := {
  access : pystr;
  name : pystr;
  params : pystr;
  return_type : pystr;
  full_signature : pystr;
  start_line : nat
}.

(** [current_method] once the method-end branch has added the keys [body]
    and [line_count]: an element of [result["methods"]]. *)
Record Method := {
  header : OpenMethod;
  body : pystr;
  line_count : nat
}.

Record SmaliClass := {
  class_name : pystr;
  super_class : pystr;
  source_file : pystr;
  interfaces : list pystr;
  fields : list Field;
  methods : list Method
}.

(** The variables of the loop. *)
Record ParseState := {
  result : SmaliClass;
  current_method : option OpenMethod;
  method_lines : list pystr
}.

Definition initial : ParseState :=
  {| result := {| class_name := []; super_class := []; source_file := [];
                  interfaces := []; fields := []; methods := [] |};
     current_method := None;
     method_lines := [] |}.

Definition with_result (st : ParseState) (r : SmaliClass) : ParseState :=
  {| result := r; current_method := current_method st;
     method_lines := method_lines st |}.

Section Patterns.

(** [str.isalnum] on the code points from 128 on (the Unicode character
    database, which is not part of the repository). *)
Variable unicode_alnum : char -> bool.

Definition ascii_alnum (c : char) : bool :=
  ((48 <=? c) && (c <=? 57) || (65 <=? c) && (c <=? 90) ||
   (97 <=? c) && (c <=? 122))%N.

(** [\w] *)
Definition word (c : char) : bool :=
  ascii_alnum c || N.eqb c 95 || (128 <=? c)%N && unicode_alnum c.

(** [[\w/$]] *)
Definition type_char (c : char) : bool :=
  word c || N.eqb c 47 || N.eqb c 36.

(** [(L[\w/$]+;)] *)
Definition type_descriptor : re :=
  Group (seq [Chr (only 76); plus type_char; Chr (only 59)]).

Definition nonspace (c : char) : bool := negb (isspace c).

(** [\.class\s+.*?(L[\w/$]+;)] *)
Definition re_class : re :=
  seq [Lit (py ".class"); plus isspace; star_lazy dot; type_descriptor].

(** [\.super\s+(L[\w/$]+;)] *)
Definition re_super : re :=
  seq [Lit (py ".super"); plus isspace; type_descriptor].

(** [\.source\s+Q([^Q]+)Q], where Q is the double quote *)
Definition re_source : re :=
  seq [Lit (py ".source"); plus isspace; Chr (only 34);
       Group (plus (except 34)); Chr (only 34)].

(** [\.implements\s+(L[\w/$]+;)] *)
Definition re_implements : re :=
  seq [Lit (py ".implements"); plus isspace; type_descriptor].

(** [\.field\s+(\S+)\s+(\S+):(\S+)] *)
Definition re_field : re :=
  seq [Lit (py ".field"); plus isspace; Group (plus nonspace); plus isspace;
       Group (plus nonspace); Chr (only 58); Group (plus nonspace)].

(** [\.method \s+ (.+?) \s+ (\S+) \( ( [^)]* ) \) (\S+)] (spaces added) *)
Definition re_method : re :=
  seq [Lit (py ".method"); plus isspace; Group (plus_lazy dot); plus isspace;
       Group (plus nonspace); Chr (only 40); Group (star (except 41));
       Chr (only 41); Group (plus nonspace)].

(** The body of [for line in lines]. *)
Definition parse_line (st : ParseState) (raw : pystr) : ParseState :=
  let line := strip raw in
  let r := result st in
  if startswith line (py ".class") then
    match search re_class line with
    | Some (g1 :: _) =>
        with_result st
          {| class_name := g1; super_class := super_class r;
             source_file := source_file r; interfaces := interfaces r;
             fields := fields r; methods := methods r |}
    | _ => st
    end
  else if startswith line (py ".super") then
    match search re_super line with
    | Some (g1 :: _) =>
        with_result st
          {| class_name := class_name r; super_class := g1;
             source_file := source_file r; interfaces := interfaces r;
             fields := fields r; methods := methods r |}
    | _ => st
    end
  else if startswith line (py ".source") then
    match search re_source line with
    | Some (g1 :: _) =>
        with_result st
          {| class_name := class_name r; super_class := super_class r;
             source_file := g1; interfaces := interfaces r;
             fields := fields r; methods := methods r |}
    | _ => st
    end
  else if startswith line (py ".implements") then
    match search re_implements line with
    | Some (g1 :: _) =>
        with_result st
          {| class_name := class_name r; super_class := super_class r;
             source_file := source_file r;
             interfaces := interfaces r ++ [g1];
             fields := fields r; methods := methods r |}
    | _ => st
    end
  else if startswith line (py ".field") then
    match search re_field line with
    | Some (g1 :: g2 :: g3 :: _) =>
        with_result st
          {| class_name := class_name r; super_class := super_class r;
             source_file := source_file r; interfaces := interfaces r;
             fields := fields r ++
                       [{| f_access := g1; f_name := g2; f_type := g3 |}];
             methods := methods r |}
    | _ => st
    end
  else if startswith line (py ".method") then
    match search re_method line with
    | Some (g1 :: g2 :: g3 :: g4 :: _) =>
        {| result := r;
           current_method :=
             Some {| access := g1; name := g2; params := g3;
                     return_type := g4; full_signature := line;
                     start_line := length (method_lines st) |};
           method_lines := [line] |}
    | _ => st
    end
  else if startswith line (py ".end method") then
    match current_method st with
    | Some m =>
        let method_lines := method_lines st ++ [line] in
        {| result :=
             {| class_name := class_name r; super_class := super_class r;
                source_file := source_file r; interfaces := interfaces r;
                fields := fields r;
                methods := methods r ++
                           [{| header := m; body := join_nl method_lines;
                               line_count := length method_lines |}] |};
           current_method := None;
           method_lines := [] |}
    | None => st
    end
  else
    match current_method st with
    | Some _ =>
        {| result := r; current_method := current_method st;
           method_lines := method_lines st ++ [line] |}
    | None => st
    end.

(** The state after the loop has consumed [lines]. *)
Definition parse_lines (lines : list pystr) : ParseState :=
  fold_left parse_line lines initial.

Definition parse_smali_class (content : pystr) : SmaliClass :=
  result (parse_lines (split_nl content)).

End Patterns.

End Parser.

(** ** ProcessBridge: [FastDexEditor], [fast_dex.py] lines 20-80 *)

Module Bridge.

(** The exceptions the two [except] clauses of [_send_command] tell apart. *)
Inductive exn_class := JSONDecodeError | OSError | OtherException.

(** A raised exception [e] and its [str(e)]. *)
Record exn := {
  exn_kind : exn_class;
  exn_str : pystr
}.

(** A Python call either returns or raises. *)
Inductive outcome (A : Type) :=
| Return (a : A)
| Raise (e : exn).
Arguments Return {A} a.
Arguments Raise {A} e.

(** What one [stdout.readline()] of the worker does: it delivers a line (the
    empty string at the end of the stream) or raises. *)
Inductive read_event :=
| Line (line : pystr)
| ReadFault (e : exn).

(** A [subprocess.Popen] handle as the bridge observes it during one
    exchange: whether [poll()] reports an exit, whether [stdin.write] /
    [stdin.flush] raise, and what the successive [readline] calls do; after
    the last event the stream is at its end.  (A worker that neither answers
    nor closes its stream blocks the caller and is outside this model.) *)
Record Process := {
  exited : bool;
  write_fault : option exn;
  stdout : list read_event
}.

(** [self.process] *)
Record FastDexEditor := {
  process : option Process
}.

(** The [for ch in line] loop on [(brace_count, started)]. *)
Definition count_char (st : Z * bool) (ch : char) : Z * bool :=
  let '(brace_count, started) := st in
  if N.eqb ch 123 then ((brace_count + 1)%Z, true)
  else if N.eqb ch 125 then ((brace_count - 1)%Z, started)
  else (brace_count, started).

Definition count_line (st : Z * bool) (line : pystr) : Z * bool :=
  fold_left count_char line st.

(** What the [while True] loop leaves behind: the collected [lines], whether
    it ended on the [break] of a complete response (and not at the end of
    the stream), and the unread part of the stream. *)
Record Frame := {
  lines : list pystr;
  complete : bool;
  unread : list read_event
}.

(** The [while True] loop of [_send_command], lines 52-70. *)
Fixpoint read_loop (out : list read_event) (lines : list pystr)
    (brace_count : Z) (started : bool) : outcome Frame :=
  match out with
  | [] => Return {| lines := lines; complete := false; unread := [] |}
  | ReadFault e :: _ => Raise e
  | Line line :: rest =>
      match line with
      | [] => Return {| lines := lines; complete := false; unread := rest |}
      | _ :: _ =>
          let '(brace_count, started) :=
            count_line (brace_count, started) line in
          let lines := if started then lines ++ [line] else lines in
          if started && (brace_count =? 0)%Z then
            Return {| lines := lines; complete := true; unread := rest |}
          else read_loop rest lines brace_count started
      end
  end.

(** Lines 48-70: the loop from its initial variables. *)
Definition read_response (out : list read_event) : outcome Frame :=
  read_loop out [] 0%Z false.

(** [response_text = "".join(lines)] *)
Definition response_text (f : Frame) : pystr := concat (lines f).

Section SendCommand.

(** The [json] module: the values [json.loads] builds, [json.dumps] on the
    request dict, and [json.loads], which raises on text that is no JSON
    value. *)
Variable JsonValue : Type.
Variable json_dumps : pystr -> list pystr -> pystr.
Variable json_loads : pystr -> outcome JsonValue.

(** What [subprocess.Popen([JAVA_PATH, "-jar", DEX_EDITOR_JAR], ...)] does
    when it is called: it raises (no such executable, no memory, ...) or
    returns a new handle. *)
Variable popen : outcome Process.

(** The value of [_send_command]: what [json.loads] returned, or one of the
    dicts [{"success": False, "error": ...}] built locally. *)
Inductive Response :=
| Parsed (v : JsonValue)
| Failure (error : pystr).

(** The two [except] clauses. *)
Definition handle (e : exn) : Response :=
  match exn_kind e with
  | JSONDecodeError => Failure (py "JSON parse error: " ++ exn_str e)
  | _ => Failure (exn_str e)
  end.

(** [_ensure_process], lines 26-36. *)
Definition ensure_process (self : FastDexEditor) : outcome FastDexEditor :=
  let spawn :=
    match popen with
    | Return p => Return {| process := Some p |}
    | Raise e => Raise e
    end in
  match process self with
  | None => spawn
  | Some p => if exited p then spawn else Return self
  end.

(** The [try] block, lines 44-76, on the handle [p]. *)
Definition exchange (p : Process) (command : pystr) (args : list pystr)
    : outcome Response * Process :=
  let request := json_dumps command args in
  match write_fault p with
  | Some e => (Raise e, p)
  | None =>
      match read_response (stdout p) with
      | Raise e => (Raise e, p)
      | Return f =>
          let p' := {| exited := exited p; write_fault := write_fault p;
                       stdout := unread f |} in
          match lines f with
          | [] => (Return (Failure (py "No response from dex-editor")), p')
          | _ :: _ =>
              match json_loads (response_text f) with
              | Return v => (Return (Parsed v), p')
              | Raise e => (Raise e, p')
              end
          end
      end
  end.

(** [_send_command], lines 38-80: the call returns a value or raises, and
    leaves the editor in a new state.  [args = None] is the default
    argument. *)
Definition send_command (self : FastDexEditor) (command : pystr)
    (args : option (list pystr)) : outcome Response * FastDexEditor :=
  match ensure_process self with
  | Raise e => (Raise e, self)
  | Return self =>
      match process self with
      | None =>
          (Return (Failure
             (py "'NoneType' object has no attribute 'stdin'")), self)
      | Some p =>
          let '(r, p') :=
            exchange p command (match args with Some a => a | None => [] end)
          in
          (match r with
           | Return v => Return v
           | Raise e => Return (handle e)
           end,
           {| process := Some p' |})
      end
  end.

End SendCommand.

End Bridge.

(** ** Vocabulary of the statements *)

Module Vocabulary.
Import Bridge.

(** [tools/smali_tools.py], [smali_replace_method] and [smali_insert_code]:
    the handler writes [result["content"]] back to the file only
    [if result["success"]].  The text of the file after the handler ran on a
    file read as [content]. *)
Definition document_after (content : pystr) (result : EditResult) : pystr :=
  if success result then MethodEditor.content result else content.

(** How many lines contain both [.method] and the target name. *)
Definition count_targets (method_name : pystr) (lines : list pystr) : nat :=
  length (filter (is_target method_name) lines).

(** No line that lies inside a matched method (after a line that contains
    [.method] and the target name, up to the next line that trims to
    [.end method]) begins, after trimming, with [.locals]. *)
Fixpoint locals_free (method_name : pystr) (in_method : bool)
    (lines : list pystr) : bool :=
  match lines with
  | [] => true
  | line :: rest =>
      if is_target method_name line then locals_free method_name true rest
      else if in_method then
        negb (is_locals line) &&
        locals_free method_name (negb (is_end line)) rest
      else locals_free method_name false rest
  end.

Definition OPEN : char := 123.
Definition CLOSE : char := 125.

(** Occurrences of a character in a text. *)
Definition occ (c : char) (s : pystr) : nat := length (filter (N.eqb c) s).

(** The count of [{] minus [}] over a text. *)
Definition depth (s : pystr) : Z := (Z.of_nat (occ OPEN s) - Z.of_nat (occ CLOSE s))%Z.

Definition has_open (s : pystr) : bool := existsb (N.eqb OPEN) s.

(** After the lines [seen], at least one [{] has been read and the count of
    [{] minus [}] over all their characters is zero. *)
Definition frame_done (seen : list pystr) : bool :=
  has_open (concat seen) && (depth (concat seen) =? 0)%Z.



(** The lines from the first one that contains a [{]. *)
Fixpoint from_first_open (seen : list pystr) : list pystr :=
  match seen with
  | [] => []
  | l :: rest => if has_open l then seen else from_first_open rest
  end.

(** The index of the first line of [ls] after which [frame_done] holds,
    [seen] being the lines read before [ls]. *)
Fixpoint first_done (seen ls : list pystr) : option nat :=
  match ls with
  | [] => None
  | l :: rest =>
      if frame_done (seen ++ [l]) then Some 0
      else option_map S (first_done (seen ++ [l]) rest)
  end.

(** The editor needs a new worker: it holds none, or the one it holds has
    exited. *)
Definition needs_spawn (self : FastDexEditor) : bool :=
  match process self with
  | None => true
  | Some p => exited p
  end.

(** While a method is open in the parser, the collected lines begin with
    its start line, which begins with [.method]. *)
Definition open_method_inv (st : Parser.ParseState) : Prop :=
  forall m, Parser.current_method st = Some m ->
    startswith (Parser.full_signature m) (py ".method") = true /\
    exists inner, Parser.method_lines st = Parser.full_signature m :: inner.

End Vocabulary.
Import Vocabulary.

(** ** Documents used as examples *)

Module Examples.

Definition foo_doc : list pystr :=
  [py ".method public foo()V"; py ".locals 1"; py "return-void";
   py ".end method"].


(** Two overloads of [foo], neither closed by [.end method]. *)
Definition unterminated_doc : list pystr :=
  [py ".method public foo()V"; py "return-void";
   py ".method public foo(I)V"; py "return-void"].

(** A method whose body has a comment that names [.method foo]. *)
Definition commented_doc : list pystr :=
  [py ".method public foo()V"; py "# see .method foo"; py "return-void";
   py ".end method"].

Definition bar_doc : list pystr :=
  [py ".class public LFoo;"; py ".method public bar()V"; py ".locals 0";
   py "return-void"; py ".end method"].

(** A small class file. *)
Definition class_doc : list pystr :=
  [py ".class public Lcom/example/Foo;"; py ".super Ljava/lang/Object;";
   py ".implements Ljava/lang/Runnable;"; py ".field private count:I";
   py ".method public static foo(II)V"; py "    .locals 1";
   py "    return-void"; py ".end method"].

End Examples.
Import Examples.


(** ** Code-snippet generators: [smali_utils.py], lines 251-299 *)

Module Snippets.

Definition QUOTE : char := 34.

(** [s.replace("0", "1")]: every occurrence of the one-character text. *)
Definition replace_0_by_1 (s : pystr) : pystr :=
  map (fun c => if N.eqb c 48 then 49%N else c) s.

(** [generate_log_smali]: the f-string, which starts and ends with a line
    break. *)
Definition generate_log_smali (tag message register : pystr) : pystr :=
  [NL] ++ py "    const-string " ++ register ++ py ", " ++ [QUOTE] ++ tag
       ++ [QUOTE; NL]
  ++ py "    const-string " ++ replace_0_by_1 register ++ py ", " ++ [QUOTE]
       ++ message ++ [QUOTE; NL]
  ++ py "    invoke-static {" ++ register ++ py ", " ++ replace_0_by_1 register
       ++ py "}, Landroid/util/Log;->d(Ljava/lang/String;Ljava/lang/String;)I"
       ++ [NL].

(** [value == lit], for a [value] that may be [None]. *)
Definition value_is (value : option pystr) (lit : pystr) : bool :=
  match value with
  | Some v => str_eqb v lit
  | None => false
  end.

(** [value or default]: [None] and the empty string are falsy. *)
Definition value_or (value : option pystr) (default : pystr) : pystr :=
  match value with
  | Some (c :: v) => c :: v
  | _ => default
  end.

(** [generate_return_smali]; [value = None] is the default argument. *)
Definition generate_return_smali (return_type : pystr) (value : option pystr)
    : pystr :=
  if str_eqb return_type (py "V") then py "    return-void"
  else if str_eqb return_type (py "Z") then
    let val := if value_is value (py "true") then py "0x1" else py "0x0" in
    py "    const/4 v0, " ++ val ++ [NL] ++ py "    return v0"
  else if existsb (str_eqb return_type) [py "I"; py "S"; py "B"; py "C"] then
    py "    const v0, " ++ value_or value (py "0x0") ++ [NL]
    ++ py "    return v0"
  else if str_eqb return_type (py "J") then
    py "    const-wide v0, " ++ value_or value (py "0x0") ++ [NL]
    ++ py "    return-wide v0"
  else if startswith return_type (py "L") || startswith return_type (py "[")
  then
    if value_is value (py "null")
    then py "    const/4 v0, 0x0" ++ [NL] ++ py "    return-object v0"
    else py "    return-object v0"
  else py "    return-void".

End Snippets.
Import Snippets.

(** ** Vocabulary of the further statements *)

Module Vocabulary2.

(** At [start] the code goes after every [.locals] line of the method. *)
Definition after_locals (code_to_insert : pystr) (body : list pystr)
    : list pystr :=
  flat_map (fun l => if is_locals l then [l; code_to_insert] else [l]) body.

(** How many lines begin, after trimming, with [prefix]. *)
Definition count_prefix (prefix : pystr) (lines : list pystr) : nat :=
  length (filter (fun l => startswith (strip l) prefix) lines).

(** A parsed method: its body is the join of its start line, which begins
    with [.method], further lines, and a last line that begins with
    [.end method]; [line_count] counts these lines. *)
Definition framed_method (m : Parser.Method) : Prop :=
  exists inner last_line,
    Parser.body m
    = join_nl (Parser.full_signature (Parser.header m) :: inner ++ [last_line])
    /\ startswith (Parser.full_signature (Parser.header m)) (py ".method")
       = true
    /\ startswith last_line (py ".end method") = true
    /\ Parser.line_count m = length inner + 2.

(** A worker that is running and whose input pipe accepts the request. *)
Definition live (p : Bridge.Process) : Prop :=
  Bridge.exited p = false /\ Bridge.write_fault p = None.

(** What [_send_command] makes of the text of a response: the value
    [json.loads] returns, or the failure dict of the [except] clause that
    catches what it raises. *)
Definition decoded (JsonValue : Type)
    (json_loads : pystr -> Bridge.outcome JsonValue) (text : pystr)
    : Bridge.Response JsonValue :=
  match json_loads text with
  | Bridge.Return v => Bridge.Parsed v
  | Bridge.Raise e => Bridge.handle JsonValue e
  end.

(** Whether the parser has a method open. *)
Definition n_open (st : Parser.ParseState) : nat :=
  match Parser.current_method st with
  | Some _ => 1
  | None => 0
  end.

End Vocabulary2.
Import Vocabulary2.

(** ** Workers used as examples *)

Module BridgeExamples.
Import Bridge.

(** A worker that is running and has the given lines still to deliver. *)
Definition worker (ls : list pystr) : Process :=
  {| exited := false; write_fault := None; stdout := map Line ls |}.

(** A decoder that accepts every text, an encoder that keeps the command
    name, and a spawn that fails. *)
Definition accept : pystr -> outcome pystr := fun text => Return text.
Definition dumps : pystr -> list pystr -> pystr := fun command _ => command.
Definition no_java : outcome Process :=
  Raise {| exn_kind := OSError; exn_str := py "no java" |}.

End BridgeExamples.
Import BridgeExamples.

(** ** Further examples and vocabulary *)

Module Examples2.

(** A class whose only method is [bar]; one instruction of its body loads a
    string literal that contains [.method] and [foo]. *)
Definition literal_doc : list pystr :=
  [py ".method public bar()V"; py "    .locals 1";
   py "    const-string v0, " ++ [34%N] ++ py "x.method.foo" ++ [34%N];
   py "    return-void"; py ".end method"].

(** The return types [generate_return_smali] has a branch for. *)
Definition known_return_type (return_type : pystr) : bool :=
  str_eqb return_type (py "V") || str_eqb return_type (py "Z")
  || existsb (str_eqb return_type) [py "I"; py "S"; py "B"; py "C"]
  || str_eqb return_type (py "J")
  || startswith return_type (py "L") || startswith return_type (py "[").

End Examples2.
Import Examples2.

(** * Properties *)

Unset Implicit Arguments.

(** ** Text primitives *)

Section TextFacts.

Lemma str_eqb_eq (a b : pystr) : str_eqb a b = true <-> a = b.
Proof.
  revert b; induction a as [|x a IH]; intros [|y b]; simpl;
    try (split; [discriminate | congruence]); try tauto.
  rewrite andb_true_iff, N.eqb_eq, IH. split.
  - intros [-> ->]; reflexivity.
  - intros H; injection H; auto.
Qed.

Lemma str_eqb_refl (a : pystr) : str_eqb a a = true.
Proof. apply str_eqb_eq; reflexivity. Qed.

Lemma split_nl_not_nil (s : pystr) : split_nl s <> [].
Proof.
  destruct s as [|c s]; simpl; [discriminate|].
  destruct (N.eqb c NL); [discriminate|].
  destruct (split_nl s); discriminate.
Qed.

Lemma split_nl_app (a b : pystr) :
  split_nl (a ++ NL :: b) = split_nl a ++ split_nl b.
Proof.
  induction a as [|c a IH]; simpl.
  - reflexivity.
  - destruct (N.eqb c NL).
    + rewrite IH; reflexivity.
    + rewrite IH. pose proof (split_nl_not_nil a) as Hne.
      destruct (split_nl a) as [|l ls]; [congruence | reflexivity].
Qed.

Lemma split_nl_line (l : pystr) : ~ In NL l -> split_nl l = [l].
Proof.
  induction l as [|c l IH]; simpl; intros Hn; [reflexivity|].
  destruct (N.eqb_spec c NL) as [->|_]; [tauto|].
  rewrite IH by tauto. reflexivity.
Qed.

Lemma split_join_concat (ls : list pystr) :
  ls <> [] -> split_nl (join_nl ls) = concat (map split_nl ls).
Proof.
  induction ls as [|l ls IH]; [congruence|]; intros _.
  destruct ls as [|l' ls].
  - simpl. rewrite app_nil_r. reflexivity.
  - change (join_nl (l :: l' :: ls)) with (l ++ NL :: join_nl (l' :: ls)).
    rewrite split_nl_app, IH by discriminate. reflexivity.
Qed.

Lemma concat_singletons (A : Type) (ls : list A) (f : A -> list A) :
  Forall (fun l => f l = [l]) ls -> concat (map f ls) = ls.
Proof.
  induction 1 as [|l ls Hl _ IH]; simpl; [reflexivity|].
  rewrite Hl, IH. reflexivity.
Qed.

(** Splitting the joined lines of a document gives the lines back. *)
Lemma split_join (ls : list pystr) :
  ls <> [] -> Forall (fun l => ~ In NL l) ls -> split_nl (join_nl ls) = ls.
Proof.
  intros Hne Hall. rewrite split_join_concat by assumption.
  apply concat_singletons.
  eapply Forall_impl; [|exact Hall]. intros l; apply split_nl_line.
Qed.

(** Joining the lines of a text gives the text back. *)
Lemma join_split (s : pystr) : join_nl (split_nl s) = s.
Proof.
  induction s as [|c s IH]; simpl; [reflexivity|].
  destruct (N.eqb_spec c NL) as [->|_].
  - pose proof (split_nl_not_nil s) as Hne.
    destruct (split_nl s) as [|l ls] eqn:E; [congruence|].
    change (join_nl ([] :: l :: ls)) with ([] ++ NL :: join_nl (l :: ls)).
    rewrite IH. reflexivity.
  - destruct (split_nl s) as [|l ls] eqn:E.
    + exfalso; eapply split_nl_not_nil; eassumption.
    + destruct ls as [|l' ls]; simpl in *; rewrite <- IH; reflexivity.
Qed.

Lemma split_nl_no_nl (s : pystr) : Forall (fun l => ~ In NL l) (split_nl s).
Proof.
  induction s as [|c s IH]; simpl.
  - constructor; auto.
  - destruct (N.eqb_spec c NL) as [->|Hc].
    + constructor; auto.
    + destruct (split_nl s) as [|l ls]; [repeat constructor; simpl; intuition|].
      inversion IH; subst. constructor; [|assumption].
      simpl; intuition.
Qed.

Lemma lstrip_decomp (s : pystr) :
  exists w, s = w ++ lstrip s /\ Forall (fun c => isspace c = true) w.
Proof.
  induction s as [|c s (w & E & Hw)]; simpl.
  - exists []; auto.
  - destruct (isspace c) eqn:Hc.
    + exists (c :: w); split; [simpl; congruence | constructor; assumption].
    + exists []; auto.
Qed.

(** [strip] removes white space at both ends only. *)
Lemma strip_decomp (s : pystr) :
  exists w1 w2, s = w1 ++ strip s ++ w2 /\
    Forall (fun c => isspace c = true) w1 /\
    Forall (fun c => isspace c = true) w2.
Proof.
  destruct (lstrip_decomp s) as (w1 & E1 & H1).
  destruct (lstrip_decomp (rev (lstrip s))) as (w2 & E2 & H2).
  exists w1, (rev w2). unfold strip, rstrip. repeat split.
  - rewrite E1 at 1. f_equal.
    rewrite <- rev_app_distr, <- E2, rev_involutive. reflexivity.
  - assumption.
  - apply Forall_rev; assumption.
Qed.

End TextFacts.

(** ** MethodEditor *)

Section EditorFacts.

Variable name : pystr.

Local Abbreviation target := (is_target name).
Local Abbreviation plain l := (is_target name l = false).

Lemma space_not_dot (c : char) : isspace c = true -> N.eqb 46 c = false.
Proof.
  intros Hs. destruct (N.eqb_spec 46 c) as [<-|]; [|reflexivity].
  vm_compute in Hs. discriminate.
Qed.

Lemma no_method_in_spaces (w tail : pystr) :
  Forall (fun c => isspace c = true) w ->
  contains DOT_METHOD (w ++ tail) = contains DOT_METHOD tail.
Proof.
  induction 1 as [|c w Hc _ IH]; [reflexivity|].
  cbn [app contains]. rewrite IH.
  unfold DOT_METHOD at 1. cbn [py String.list_ascii_of_string map startswith].
  change (N_of_ascii "."%char) with 46%N.
  rewrite (space_not_dot _ Hc). reflexivity.
Qed.

(** A line that trims to [.end method] does not contain [.method]. *)
Lemma is_end_not_target (l : pystr) : is_end l = true -> plain l.
Proof.
  unfold is_end, is_target. intros H. apply str_eqb_eq in H.
  destruct (strip_decomp l) as (w1 & w2 & E & H1 & H2).
  rewrite H in E. rewrite E.
  rewrite (no_method_in_spaces _ _ H1).
  replace (contains DOT_METHOD (END_METHOD ++ w2))
    with (contains DOT_METHOD (w2 ++ [])).
  - rewrite (no_method_in_spaces _ _ H2). reflexivity.
  - rewrite app_nil_r. reflexivity.
Qed.

Lemma first_target_split (lines : list pystr) :
  existsb target lines = true ->
  exists p t r, lines = p ++ t :: r /\ Forall (fun l => plain l) p /\
                target t = true.
Proof.
  induction lines as [|l lines IH]; simpl; [discriminate|].
  destruct (target l) eqn:Hl.
  - intros _. exists [], l, lines; auto.
  - intros H. destruct (IH H) as (p & t & r & -> & Hp & Ht).
    exists (l :: p), t, r; auto.
Qed.

(** *** The scan of [get_method_from_smali] *)

Lemma get_loop_skip pre rest i ml sl :
  Forall (fun l => plain l) pre ->
  get_loop name (pre ++ rest) i false ml sl
  = get_loop name rest (i + length pre) false ml sl.
Proof.
  intros H; revert i; induction H as [|l pre Hl _ IH]; intros i; simpl.
  - f_equal; lia.
  - rewrite Hl, IH. f_equal; lia.
Qed.

Lemma get_loop_none lines i ml sl :
  Forall (fun l => plain l) lines ->
  get_loop name lines i false ml sl = None.
Proof.
  intros H. rewrite <- (app_nil_r lines), get_loop_skip by assumption.
  reflexivity.
Qed.

Lemma get_loop_body body rest i ml sl :
  Forall (fun l => plain l /\ is_end l = false) body ->
  get_loop name (body ++ rest) i true ml sl
  = get_loop name rest (i + length body) true (ml ++ body) sl.
Proof.
  intros H; revert i ml; induction H as [|l body [Hl He] _ IH]; intros i ml;
    simpl.
  - rewrite app_nil_r. f_equal; lia.
  - rewrite Hl, He, IH, <- app_assoc. f_equal; lia.
Qed.

Lemma get_loop_span pre s body e post :
  Forall (fun l => plain l) pre ->
  target s = true ->
  Forall (fun l => plain l /\ is_end l = false) body ->
  is_end e = true ->
  get_loop name (pre ++ s :: body ++ e :: post) 0 false [] 0
  = Some {| mr_success := true;
            mr_method := join_nl (s :: body ++ [e]);
            mr_start_line := Some (length pre + 1);
            mr_end_line := Some (length pre + length body + 2);
            mr_error := [] |}.
Proof.
  intros Hpre Hs Hbody He.
  rewrite get_loop_skip by assumption. cbn [get_loop]. rewrite Hs.
  rewrite get_loop_body by assumption. cbn [get_loop].
  rewrite (is_end_not_target _ He), He.
  cbn [app].
  replace (0 + length pre + 1) with (length pre + 1) by lia.
  replace (S (0 + length pre) + length body + 1)
    with (length pre + length body + 2) by lia.
  reflexivity.
Qed.

(** *** The scan of [replace_method_in_smali] *)

Variable new : pystr.

Lemma replace_loop_acc lines acc im mr :
  replace_loop name new lines acc im mr
  = (acc ++ fst (replace_loop name new lines [] im mr),
     snd (replace_loop name new lines [] im mr)).
Proof.
  revert acc im mr; induction lines as [|l lines IH]; intros acc im mr; simpl.
  - rewrite app_nil_r; reflexivity.
  - destruct (target l); [|destruct im].
    + rewrite IH, (IH [new]), <- app_assoc. reflexivity.
    + apply IH.
    + rewrite IH, (IH [l]), <- app_assoc. reflexivity.
Qed.

Lemma replace_loop_skip pre rest acc mr :
  Forall (fun l => plain l) pre ->
  replace_loop name new (pre ++ rest) acc false mr
  = replace_loop name new rest (acc ++ pre) false mr.
Proof.
  intros H; revert acc; induction H as [|l pre Hl _ IH]; intros acc; simpl.
  - rewrite app_nil_r; reflexivity.
  - rewrite Hl, IH, <- app_assoc. reflexivity.
Qed.

Lemma replace_loop_body body rest acc mr :
  Forall (fun l => plain l /\ is_end l = false) body ->
  replace_loop name new (body ++ rest) acc true mr
  = replace_loop name new rest acc true mr.
Proof.
  induction 1 as [|l body [Hl He] _ IH]; simpl; [reflexivity|].
  rewrite Hl, He. exact IH.
Qed.

Lemma replace_loop_open rest acc :
  Forall (fun l => is_end l = false) rest ->
  replace_loop name new rest acc true true
  = (acc ++ repeat new (count_targets name rest), true).
Proof.
  intros H; revert acc; induction H as [|l rest He _ IH]; intros acc;
    unfold count_targets; simpl.
  - rewrite app_nil_r; reflexivity.
  - destruct (target l); simpl.
    + rewrite IH, <- app_assoc. reflexivity.
    + rewrite He. apply IH.
Qed.

Lemma replace_loop_found lines acc im :
  snd (replace_loop name new lines acc im true) = true.
Proof.
  revert acc im; induction lines as [|l lines IH]; intros acc im; simpl;
    [reflexivity|].
  destruct (target l); [|destruct im]; apply IH.
Qed.

(** From the first matching line on. *)
Lemma replace_loop_first pre s rest mr :
  Forall (fun l => plain l) pre ->
  target s = true ->
  replace_loop name new (pre ++ s :: rest) [] false mr
  = (pre ++ new :: fst (replace_loop name new rest [] true true), true).
Proof.
  intros Hpre Hs. rewrite replace_loop_skip by assumption. simpl. rewrite Hs.
  rewrite replace_loop_acc, replace_loop_found, <- app_assoc. reflexivity.
Qed.

(** *** The scan of [insert_smali_code] *)

Variables code position : pystr.

Lemma insert_loop_copy lines acc im mf :
  (str_eqb position (py "start") = false /\
   str_eqb position (py "end") = false) \/
  (position = py "start" /\ locals_free name im lines = true) ->
  insert_loop name code position lines acc im mf
  = (acc ++ lines, mf || existsb target lines).
Proof.
  revert acc im mf; induction lines as [|l lines IH]; intros acc im mf H;
    simpl.
  - rewrite app_nil_r, orb_false_r; reflexivity.
  - destruct (target l) eqn:Hl.
    + rewrite IH, <- app_assoc, orb_true_r; [reflexivity|].
      destruct H as [H|[Hp H]]; [left; exact H|right].
      simpl in H; rewrite Hl in H. auto.
    + destruct im.
      * destruct H as [[H1 H2]|[Hp H]].
        -- rewrite H1, H2. simpl.
           destruct (is_end l); rewrite IH, <- app_assoc by auto; reflexivity.
        -- simpl in H; rewrite Hl in H. apply andb_true_iff in H.
           destruct H as [Hloc H]. apply negb_true_iff in Hloc.
           rewrite Hloc, andb_false_r. subst position.
           change (str_eqb (py "start") (py "end")) with false.
           destruct (is_end l); simpl in H;
             rewrite IH, <- app_assoc by auto; reflexivity.
      * rewrite IH, <- app_assoc; [reflexivity|].
        destruct H as [H|[Hp H]]; [left; exact H|right].
        simpl in H; rewrite Hl in H. auto.
Qed.

Lemma existsb_plain lines :
  Forall (fun l => plain l) lines -> existsb target lines = false.
Proof.
  induction 1 as [|l lines Hl _ IH]; simpl; [reflexivity|].
  rewrite Hl, IH; reflexivity.
Qed.

Lemma insert_loop_plain lines acc :
  Forall (fun l => plain l) lines ->
  insert_loop name code position lines acc false false = (acc ++ lines, false).
Proof.
  intros H; revert acc; induction H as [|l lines Hl _ IH]; intros acc; simpl.
  - rewrite app_nil_r; reflexivity.
  - rewrite Hl, IH, <- app_assoc. reflexivity.
Qed.

End EditorFacts.

Ltac forall_lines := vm_compute; repeat constructor.

(** *** Not found *)

(** C5, as stated, fails: the scans test every line, not only the lines
    that start a method.  In this document no line that begins (after
    trimming) with [.method] contains [foo], but the string literal of the
    third line contains both [.method] and [foo]: extraction succeeds from
    that line on, replacement rewrites the document and insertion changes
    it. *)
Lemma literal_line_counterexample :
  forallb (fun l => negb (startswith (strip l) (py ".method")
                          && contains (py "foo") l)) literal_doc = true
  /\ get_method_from_smali (join_nl literal_doc) (py "foo")
     = {| mr_success := true;
          mr_method := join_nl (skipn 2 literal_doc);
          mr_start_line := Some 3;
          mr_end_line := Some 5;
          mr_error := [] |}
  /\ replace_method_in_smali (join_nl literal_doc) (py "foo") (py "X")
     = {| success := true;
          content := join_nl (firstn 2 literal_doc ++ [py "X"]);
          error := [] |}
  /\ document_after (join_nl literal_doc)
       (replace_method_in_smali (join_nl literal_doc) (py "foo") (py "X"))
     <> join_nl literal_doc
  /\ document_after (join_nl literal_doc)
       (insert_smali_code (join_nl literal_doc) (py "foo") (py "nop")
          (py "end"))
     <> join_nl literal_doc.
Proof. vm_compute. repeat split; discriminate. Qed.

(** C5, amended.  When no line of the document at all contains both
    [.method] and the target name, [get_method_from_smali],
    [replace_method_in_smali] and [insert_smali_code] each return the
    failure dict whose error is [Method not found: <name>]; the functions
    only read [content], and the tool handlers, which write a file back only
    on success, leave the document as it was. *)
Theorem method_not_found (content name new code position : pystr) :
  Forall (fun l => is_target name l = false) (split_nl content) ->
  get_method_from_smali content name
  = {| mr_success := false; mr_method := []; mr_start_line := None;
       mr_end_line := None; mr_error := py "Method not found: " ++ name |}
  /\ replace_method_in_smali content name new
     = {| success := false; content := [];
          error := py "Method not found: " ++ name |}
  /\ insert_smali_code content name code position
     = {| success := false; content := [];
          error := py "Method not found: " ++ name |}
  /\ document_after content (replace_method_in_smali content name new)
     = content
  /\ document_after content (insert_smali_code content name code position)
     = content.
Proof.
  intros H.
  assert (Hg : get_method_from_smali content name
               = {| mr_success := false; mr_method := [];
                    mr_start_line := None; mr_end_line := None;
                    mr_error := py "Method not found: " ++ name |}).
  { unfold get_method_from_smali. rewrite get_loop_none by assumption.
    reflexivity. }
  assert (Hr : replace_method_in_smali content name new
               = {| success := false; content := [];
                    error := py "Method not found: " ++ name |}).
  { unfold replace_method_in_smali.
    rewrite <- (app_nil_r (split_nl content)) at 1.
    rewrite replace_loop_skip by assumption. reflexivity. }
  assert (Hi : insert_smali_code content name code position
               = {| success := false; content := [];
                    error := py "Method not found: " ++ name |}).
  { unfold insert_smali_code. rewrite insert_loop_plain by assumption.
    reflexivity. }
  rewrite Hg, Hr, Hi. repeat split.
Qed.

Lemma method_not_found_witness :
  Forall (fun l => is_target (py "foo") l = false) (split_nl (join_nl bar_doc))
  /\ mr_error (get_method_from_smali (join_nl bar_doc) (py "foo"))
     = py "Method not found: foo"
  /\ replace_method_in_smali (join_nl bar_doc) (py "foo") (py "X")
     = {| success := false; content := [];
          error := py "Method not found: foo" |}.
Proof.
  assert (H : Forall (fun l => is_target (py "foo") l = false)
                (split_nl (join_nl bar_doc))) by forall_lines.
  destruct (method_not_found (join_nl bar_doc) (py "foo") (py "X") (py "Y")
              (py "start") H) as (Hg & Hr & _).
  split; [exact H|]. split; [rewrite Hg; reflexivity | exact Hr].
Defined.

(** *** Concrete insertion *)

(** C7.  On the document [.method public foo()V / .locals 1 / return-void /
    .end method], inserting [const/4 v0, 0x0] into [foo] at [start] succeeds
    and puts the code on a line of its own right after [.locals 1]. *)
Theorem insert_start_foo :
  insert_smali_code (join_nl foo_doc) (py "foo") (py "const/4 v0, 0x0")
    (py "start")
  = {| success := true;
       content := join_nl [py ".method public foo()V"; py ".locals 1";
                           py "const/4 v0, 0x0"; py "return-void";
                           py ".end method"];
       error := [] |}.
Proof. vm_compute. reflexivity. Qed.

(** *** Positions other than [start] and [end] *)

(** For a position that is neither [start] nor [end] the scan copies every
    line and inserts nothing: the call reports success and returns the
    document as it was. *)
Lemma insert_other_position (content name code position : pystr) :
  str_eqb position (py "start") = false ->
  str_eqb position (py "end") = false ->
  existsb (is_target name) (split_nl content) = true ->
  insert_smali_code content name code position
  = {| success := true; content := content; error := [] |}.
Proof.
  intros H1 H2 Hex. unfold insert_smali_code.
  rewrite insert_loop_copy by (left; auto).
  rewrite Hex. simpl. rewrite join_split. reflexivity.
Qed.

(** C4 (the code departs from the claim).  With the position [middle], on a
    document that has the method [foo], [insert_smali_code] returns success
    and the unchanged document, not a failure that reports the position. *)
Theorem insert_middle_succeeds :
  insert_smali_code (join_nl foo_doc) (py "foo") (py "nop") (py "middle")
  = {| success := true; content := join_nl foo_doc; error := [] |}.
Proof. apply insert_other_position; reflexivity. Qed.

(** *** Replacing a method *)


(** C10, as stated, fails when a later line matches the target as well: the
    lines from the matching start line on are then replaced by two copies of
    the replacement text, not by the replacement text. *)
Lemma replace_unterminated_counterexample :
  is_target (py "foo") (py ".method public foo()V") = true
  /\ forallb (fun l => negb (is_end l)) unterminated_doc = true
  /\ replace_method_in_smali (join_nl unterminated_doc) (py "foo") (py "X")
     = {| success := true; content := join_nl [py "X"; py "X"]; error := [] |}
  /\ join_nl [py "X"; py "X"] <> join_nl [py "X"].
Proof. vm_compute. repeat split; discriminate. Qed.

(** C10, amended.  When a line contains [.method] and the target name and no
    later line trims to [.end method], [replace_method_in_smali] succeeds,
    and no line from that start line to the end of the document is kept: in
    their place stands the replacement text, once for the start line and
    once more for each later line that also contains [.method] and the
    target name.  (What precedes is the scan's output for the lines before
    the start line: these lines themselves when none of them matches.) *)
Theorem replace_unterminated (content name new : pystr)
    (pre : list pystr) (s : pystr) (rest : list pystr) :
  split_nl content = pre ++ s :: rest ->
  is_target name s = true ->
  Forall (fun l => is_end l = false) rest ->
  replace_method_in_smali content name new
  = {| success := true;
       content := join_nl (fst (replace_loop name new pre [] false false)
                           ++ new :: repeat new (count_targets name rest));
       error := [] |}
  /\ (Forall (fun l => is_target name l = false) pre ->
      fst (replace_loop name new pre [] false false) = pre).
Proof.
  intros E Hs Hrest. split.
  - unfold replace_method_in_smali. rewrite E.
    assert (G : forall ls acc im mr,
              replace_loop name new (ls ++ s :: rest) acc im mr
              = (fst (replace_loop name new ls acc im mr)
                 ++ new :: repeat new (count_targets name rest), true)).
    { induction ls as [|l ls IH]; intros acc im mr.
      - simpl. rewrite Hs, replace_loop_open, <- app_assoc by assumption.
        reflexivity.
      - simpl. destruct (is_target name l); [|destruct im]; apply IH. }
    rewrite G. reflexivity.
  - intros Hpre. rewrite <- (app_nil_r pre) at 1.
    rewrite replace_loop_skip by assumption. reflexivity.
Qed.

Lemma replace_unterminated_witness :
  replace_method_in_smali (join_nl unterminated_doc) (py "foo") (py "X")
  = {| success := true; content := join_nl [py "X"; py "X"]; error := [] |}.
Proof.
  refine (proj1 (replace_unterminated (join_nl unterminated_doc) (py "foo")
                   (py "X") [] (py ".method public foo()V")
                   (tl unterminated_doc) _ _ _));
    try reflexivity; forall_lines.
Defined.

(** *** Inserting at [start] without a [.locals] line *)


(** *** Replace, then extract *)

(** C6, as stated, fails when a line inside the method's span also contains
    [.method] and the target name (here a comment): with [B] the span of
    [foo], replacing [foo] by [B] emits [B] twice, and the extraction that
    follows restarts at the comment line and returns less than [B]. *)
Lemma replace_extract_counterexample :
  is_target (py "foo") (py ".method public foo()V") = true
  /\ is_end (py ".end method") = true
  /\ forallb (fun l => negb (is_end l)) (removelast commented_doc) = true
  /\ content (replace_method_in_smali (join_nl commented_doc) (py "foo")
                (join_nl commented_doc))
     = join_nl (commented_doc ++ commented_doc)
  /\ mr_method (get_method_from_smali (join_nl (commented_doc ++ commented_doc))
                  (py "foo"))
     = join_nl (tl commented_doc)
  /\ join_nl (tl commented_doc) <> join_nl commented_doc.
Proof. vm_compute. repeat split; discriminate. Qed.

Lemma Forall_app_l (A : Type) (P : A -> Prop) (l1 l2 : list A) :
  Forall P (l1 ++ l2) -> Forall P l1.
Proof. intros H; apply Forall_app in H; tauto. Qed.

Lemma Forall_app_r (A : Type) (P : A -> Prop) (l1 l2 : list A) :
  Forall P (l1 ++ l2) -> Forall P l2.
Proof. intros H; apply Forall_app in H; tauto. Qed.

(** C6, amended.  Let the document contain a method whose start line
    contains [.method] and the target name, whose span runs to the first
    line after it that trims to [.end method], and let no line strictly
    inside the span contain both [.method] and the target name.  With [B]
    the text of the span, replacing the target by [B] succeeds, and
    extracting the target from the resulting document succeeds and returns
    exactly [B]. *)
Theorem replace_then_extract (content name : pystr)
    (pre : list pystr) (s : pystr) (body : list pystr) (e : pystr)
    (post : list pystr) :
  split_nl content = pre ++ s :: body ++ e :: post ->
  is_target name s = true ->
  Forall (fun l => is_target name l = false /\ is_end l = false) body ->
  is_end e = true ->
  exists content',
    replace_method_in_smali content name (join_nl (s :: body ++ [e]))
    = {| success := true; content := content'; error := [] |}
    /\ mr_success (get_method_from_smali content' name) = true
    /\ mr_method (get_method_from_smali content' name)
       = join_nl (s :: body ++ [e])
    /\ mr_error (get_method_from_smali content' name) = [].
Proof.
  intros E Hs Hbody He.
  set (B := join_nl (s :: body ++ [e])).
  pose proof (split_nl_no_nl content) as Hnl. rewrite E in Hnl.
  assert (HB : split_nl B = s :: body ++ [e]).
  { apply split_join; [discriminate|].
    apply Forall_app_r in Hnl. inversion Hnl as [|? ? Hs' Hrest]; subst.
    constructor; [assumption|].
    apply Forall_app in Hrest. destruct Hrest as [Hb Hep].
    apply Forall_app; split; [assumption|].
    inversion Hep; subst. constructor; auto. }
  assert (Hex : existsb (is_target name) (pre ++ s :: body ++ e :: post) = true).
  { rewrite existsb_app. simpl. rewrite Hs. apply orb_true_r. }
  destruct (first_target_split name _ Hex) as (p & t & r & Ep & Hp & Ht).
  assert (Hpnl : Forall (fun l => ~ In NL l) p).
  { rewrite Ep in Hnl. apply Forall_app_l in Hnl. exact Hnl. }
  unfold replace_method_in_smali.
  rewrite E, Ep, replace_loop_first by assumption. simpl negb. cbv iota.
  set (Y := fst (replace_loop name B r [] true true)).
  eexists; split; [reflexivity|].
  unfold get_method_from_smali.
  rewrite split_join_concat by (destruct p; discriminate).
  rewrite map_app, concat_app.
  rewrite (concat_singletons _ p split_nl)
    by (eapply Forall_impl; [|exact Hpnl]; intros l; apply split_nl_line).
  cbn [map concat]. rewrite HB.
  change ((s :: body ++ [e]) ++ concat (map split_nl Y))
    with (s :: (body ++ [e]) ++ concat (map split_nl Y)).
  rewrite <- app_assoc. cbn [app].
  rewrite get_loop_span by assumption.
  repeat split.
Qed.

Lemma replace_then_extract_witness :
  exists content',
    replace_method_in_smali (join_nl (py ".class LFoo;" :: foo_doc))
      (py "foo") (join_nl foo_doc)
    = {| success := true; content := content'; error := [] |}
    /\ mr_success (get_method_from_smali content' (py "foo")) = true
    /\ mr_method (get_method_from_smali content' (py "foo")) = join_nl foo_doc
    /\ mr_error (get_method_from_smali content' (py "foo")) = [].
Proof.
  apply (replace_then_extract (join_nl (py ".class LFoo;" :: foo_doc))
           (py "foo") [py ".class LFoo;"] (py ".method public foo()V")
           [py ".locals 1"; py "return-void"] (py ".end method") []);
    try reflexivity; forall_lines.
Defined.

(** ** SmaliDocumentModel *)

Section ParserFacts.
Import Parser.

Variable unicode_alnum : char -> bool.

Local Abbreviation step := (parse_line unicode_alnum).

Lemma startswith_app (l p : pystr) :
  startswith l p = true -> exists r, l = p ++ r.
Proof.
  revert l; induction p as [|x p IH]; intros l; simpl.
  - exists l; reflexivity.
  - destruct l as [|y l]; [discriminate|].
    intros H. apply andb_true_iff in H. destruct H as [Hxy H].
    apply N.eqb_eq in Hxy. destruct (IH _ H) as [r ->].
    exists r; subst; reflexivity.
Qed.

(** A trimmed line that begins with [.end method] reaches the method-end
    branch: none of the earlier prefixes applies. *)
Lemma end_prefix_branch (st : ParseState) (raw : pystr) :
  startswith (strip raw) (py ".end method") = true ->
  step st raw =
    match current_method st with
    | Some m =>
        {| result :=
             {| class_name := class_name (result st);
                super_class := super_class (result st);
                source_file := source_file (result st);
                interfaces := interfaces (result st);
                fields := fields (result st);
                methods := methods (result st) ++
                  [{| header := m;
                      body := join_nl (method_lines st ++ [strip raw]);
                      line_count := length (method_lines st ++ [strip raw]) |}]
             |};
           current_method := None;
           method_lines := [] |}
    | None => st
    end.
Proof.
  intros H. unfold parse_line. rewrite H.
  destruct (startswith_app _ _ H) as [r ->]. reflexivity.
Qed.

(** Outside the method-end branch an open method stays open (a further
    method-start line replaces it by another open method). *)
Lemma other_lines_keep_open (st : ParseState) (raw : pystr) (m : OpenMethod) :
  current_method st = Some m ->
  startswith (strip raw) (py ".end method") = false ->
  exists m', current_method (step st raw) = Some m'.
Proof.
  intros Hm H. unfold parse_line. rewrite H.
  repeat match goal with
  | |- context [if ?c then _ else _] => destruct c
  | |- context [match Re.search ?r ?l with _ => _ end] => destruct (Re.search r l)
  | |- context [match ?l with [] => _ | _ :: _ => _ end] => destruct l
  end; simpl; rewrite ?Hm; simpl; eauto; discriminate.
Qed.

Lemma open_method_inv_step (st : ParseState) (raw : pystr) :
  open_method_inv st -> open_method_inv (step st raw).
Proof.
  intros Inv m. unfold parse_line.
  repeat match goal with
  | |- context [if ?c then _ else _] => destruct c eqn:?
  | |- context [match Re.search ?r ?l with _ => _ end] => destruct (Re.search r l)
  | |- context [match ?l with [] => _ | _ :: _ => _ end] => destruct l
  | |- context [match current_method st with _ => _ end] =>
      destruct (current_method st) eqn:?
  end; simpl; try (intros Hm; apply Inv; congruence); try discriminate.
  - intros Hm; injection Hm as <-. simpl. split; [assumption|].
    exists []; reflexivity.
  - intros Hm. destruct (Inv m) as (Hp & inner & E); [congruence|].
    split; [assumption|]. exists (inner ++ [strip raw]). rewrite E. reflexivity.
Qed.

Lemma open_method_inv_reachable (seen : list pystr) :
  open_method_inv (parse_lines unicode_alnum seen).
Proof.
  unfold parse_lines.
  induction seen as [|raw seen IH] using rev_ind.
  - intros m; discriminate.
  - rewrite fold_left_app. simpl. apply open_method_inv_step. exact IH.
Qed.

End ParserFacts.

Section MethodEnd.
Import Parser.

(** C8, as stated, fails: the parser tests the trimmed line with
    [startswith], so a line that only begins with [.end method] closes the
    open method too (whatever the Unicode table is). *)
Lemma end_prefix_closes_counterexample :
  strip (py ".end method # done") <> py ".end method"
  /\ (forall unicode_alnum,
        current_method
          (parse_lines unicode_alnum
             [py ".method public foo()V"; py "  return-void"])
        <> None
        /\ current_method
             (parse_lines unicode_alnum
                [py ".method public foo()V"; py "  return-void";
                 py ".end method # done"])
           = None
        /\ map body
             (methods (parse_smali_class unicode_alnum
                (join_nl [py ".method public foo()V"; py "  return-void";
                          py ".end method # done"])))
           = [join_nl [py ".method public foo()V"; py "return-void";
                       py ".end method # done"]]).
Proof.
  split; [vm_compute; discriminate|].
  intros ua. vm_compute. repeat split; discriminate.
Qed.

(** C8, amended.  In the state the loop has reached after any lines, an
    open method is closed exactly by a line that, after trimming, begins
    with [.end method].  On closing, the collected lines start with the
    method's start line (which begins with [.method]) and end with the
    trimmed closing line, their join is the body of the method, the method
    is appended to the methods sequence, no method is open any more and the
    collected lines are reset. *)
Theorem method_closed_by_end_prefix (unicode_alnum : char -> bool)
    (seen : list pystr) (raw : pystr) :
  let st := parse_lines unicode_alnum seen in
  let st' := parse_line unicode_alnum st raw in
  ((current_method st <> None /\ current_method st' = None)
   <-> (current_method st <> None /\
        startswith (strip raw) (py ".end method") = true))
  /\ (forall m, current_method st = Some m ->
        startswith (strip raw) (py ".end method") = true ->
        exists inner,
          method_lines st = full_signature m :: inner
          /\ startswith (full_signature m) (py ".method") = true
          /\ methods (result st')
             = methods (result st) ++
               [{| header := m;
                   body := join_nl (full_signature m :: inner ++ [strip raw]);
                   line_count := length inner + 2 |}]
          /\ current_method st' = None
          /\ method_lines st' = []).
Proof.
  intros st st'. split.
  - split; intros [Hopen H]; (split; [exact Hopen|]).
    + destruct (startswith (strip raw) (py ".end method")) eqn:Hp;
        [reflexivity|].
      destruct (current_method st) as [m|] eqn:Hm; [|congruence].
      destruct (other_lines_keep_open unicode_alnum st raw m Hm Hp) as [m' Hm'].
      unfold st' in H. congruence.
    + unfold st'. rewrite end_prefix_branch by assumption.
      destruct (current_method st); [reflexivity|congruence].
  - intros m Hm Hp.
    destruct (open_method_inv_reachable unicode_alnum seen m Hm)
      as (Hsig & inner & E).
    exists inner. unfold st'. rewrite end_prefix_branch by assumption.
    unfold st in *. rewrite Hm.
    cbn [result methods current_method method_lines].
    rewrite E. repeat split; try assumption.
    change ((full_signature m :: inner) ++ [strip raw])
      with (full_signature m :: inner ++ [strip raw]).
    cbn [length]. rewrite length_app. cbn [length].
    replace (S (length inner + 1)) with (length inner + 2) by lia.
    reflexivity.
Qed.

End MethodEnd.

(** ** The matcher and the parser on examples *)

Section ParserExamples.
Import Parser.

Example re_method_backtracks :
  Re.search re_method (py ".method  a b  c(d(e)f)g h(i)j")
  = Some [py "a b"; py "c(d"; py "e"; py "f)g"].
Proof. vm_compute. reflexivity. Qed.

Example re_method_needs_access :
  Re.search re_method (py ".method bar()V") = None.
Proof. vm_compute. reflexivity. Qed.

Example re_field_one_modifier :
  Re.search re_field (py ".field private count:I")
  = Some [py "private"; py "count"; py "I"]
  /\ Re.search re_field (py ".field private static count:I") = None.
Proof. vm_compute. split; reflexivity. Qed.

Example parse_class_doc (unicode_alnum : char -> bool) :
  parse_smali_class unicode_alnum (join_nl class_doc)
  = {| class_name := py "Lcom/example/Foo;";
       super_class := py "Ljava/lang/Object;";
       source_file := [];
       interfaces := [py "Ljava/lang/Runnable;"];
       fields := [{| f_access := py "private"; f_name := py "count";
                     f_type := py "I" |}];
       methods :=
         [{| header := {| access := py "public static"; name := py "foo";
                          params := py "II"; return_type := py "V";
                          full_signature := py ".method public static foo(II)V";
                          start_line := 0 |};
             body := join_nl [py ".method public static foo(II)V";
                              py ".locals 1"; py "return-void";
                              py ".end method"];
             line_count := 4 |}] |}.
Proof. vm_compute. reflexivity. Qed.

End ParserExamples.

(** ** ProcessBridge: the frame reader *)

Section ReaderFacts.
Import Bridge.

Lemma first_done_spec (ls seen : list pystr) (k : nat) :
  first_done seen ls = Some k <->
  k < length ls /\ frame_done (seen ++ firstn (S k) ls) = true /\
  forall j, j < k -> frame_done (seen ++ firstn (S j) ls) = false.
Proof.
  revert seen k; induction ls as [|l rest IH]; intros seen k; simpl.
  - split; [discriminate|]. intros [H _]; lia.
  - destruct (frame_done (seen ++ [l])) eqn:Hd.
    + split.
      * intros Hk; injection Hk as <-. split; [lia|]. split; [exact Hd|].
        intros j Hj; lia.
      * intros (_ & _ & Hmin). destruct k as [|k]; [reflexivity|].
        specialize (Hmin 0 (Nat.lt_0_succ k)). simpl in Hmin. congruence.
    + destruct k as [|k].
      * split.
        -- destruct (first_done (seen ++ [l]) rest); discriminate.
        -- intros (_ & H & _). simpl in H. congruence.
      * destruct (first_done (seen ++ [l]) rest) as [k'|] eqn:Hf; simpl.
        -- split.
           ++ intros Hk; injection Hk as ->. apply IH in Hf.
              destruct Hf as (Hlt & Hdk & Hmin). split; [lia|]. split.
              ** rewrite <- app_assoc in Hdk. exact Hdk.
              ** intros [|j] Hj; [exact Hd|].
                 specialize (Hmin j ltac:(lia)).
                 rewrite <- app_assoc in Hmin. exact Hmin.
           ++ intros (Hlt & Hdk & Hmin). f_equal.
              assert (Hk : first_done (seen ++ [l]) rest = Some k).
              { apply IH. split; [lia|]. split.
                - rewrite <- app_assoc. exact Hdk.
                - intros j Hj. rewrite <- app_assoc.
                  apply (Hmin (S j)). lia. }
              congruence.
        -- split; [discriminate|].
           intros (Hlt & Hdk & Hmin).
           assert (Hk : first_done (seen ++ [l]) rest = Some k).
           { apply IH. split; [lia|]. split.
             - rewrite <- app_assoc. exact Hdk.
             - intros j Hj. rewrite <- app_assoc. apply (Hmin (S j)). lia. }
           congruence.
Qed.

Lemma occ_app (c : char) (a b : pystr) : occ c (a ++ b) = occ c a + occ c b.
Proof. unfold occ. rewrite filter_app, length_app. reflexivity. Qed.

Lemma depth_app (a b : pystr) : depth (a ++ b) = (depth a + depth b)%Z.
Proof. unfold depth. rewrite !occ_app. lia. Qed.

Lemma has_open_app (a b : pystr) :
  has_open (a ++ b) = has_open a || has_open b.
Proof. apply existsb_app. Qed.

(** The character loop computes the count and the [started] flag. *)
Lemma count_line_spec (line : pystr) (c : Z) (started : bool) :
  count_line (c, started) line
  = ((c + depth line)%Z, started || has_open line).
Proof.
  unfold count_line. revert c started.
  induction line as [|ch line IH]; intros c started.
  - simpl. rewrite orb_false_r. f_equal. unfold depth; simpl. lia.
  - cbn [fold_left]. unfold count_char at 2.
    change (ch :: line) with ([ch] ++ line).
    rewrite depth_app, has_open_app.
    destruct (N.eqb_spec ch 123) as [->|Ho].
    + rewrite IH. change (depth [123%N]) with 1%Z.
      change (has_open [123%N]) with true. rewrite orb_true_r.
      f_equal; lia.
    + destruct (N.eqb_spec ch 125) as [->|Hc].
      * rewrite IH. change (depth [125%N]) with (-1)%Z.
        change (has_open [125%N]) with false. f_equal; lia.
      * rewrite IH.
        assert (Hd : depth [ch] = 0%Z).
        { unfold depth, occ, OPEN, CLOSE. cbn [filter].
          rewrite (proj2 (N.eqb_neq 123 ch)), (proj2 (N.eqb_neq 125 ch))
            by congruence.
          reflexivity. }
        assert (Hh : has_open [ch] = false).
        { unfold has_open, OPEN. cbn [existsb].
          rewrite (proj2 (N.eqb_neq 123 ch)) by congruence. reflexivity. }
        rewrite Hd, Hh. f_equal; lia.
Qed.

Lemma from_first_open_closed (seen : list pystr) :
  has_open (concat seen) = false -> from_first_open seen = [].
Proof.
  induction seen as [|l seen IH]; simpl; [reflexivity|].
  rewrite has_open_app. intros H. apply orb_false_iff in H.
  destruct H as [-> H]. auto.
Qed.

Lemma from_first_open_snoc (seen : list pystr) (l : pystr) :
  from_first_open (seen ++ [l])
  = if has_open (concat seen) then from_first_open seen ++ [l]
    else if has_open l then [l] else [].
Proof.
  induction seen as [|x seen IH]; simpl.
  - destruct (has_open l); reflexivity.
  - rewrite has_open_app. destruct (has_open x); simpl; [reflexivity|].
    exact IH.
Qed.

Lemma concat_snoc (seen : list pystr) (l : pystr) :
  concat (seen ++ [l]) = concat seen ++ l.
Proof. rewrite concat_app. simpl. rewrite app_nil_r. reflexivity. Qed.

Lemma read_loop_line (line : pystr) (rest : list read_event)
    (acc : list pystr) (c : Z) (started : bool) :
  line <> [] ->
  read_loop (Line line :: rest) acc c started
  = let c' := (c + depth line)%Z in
    let started' := started || has_open line in
    let acc' := if started' then acc ++ [line] else acc in
    if started' && (c' =? 0)%Z
    then Return {| lines := acc'; complete := true; unread := rest |}
    else read_loop rest acc' c' started'.
Proof.
  intros Hne. destruct line as [|ch line]; [congruence|].
  cbn [read_loop]. rewrite count_line_spec. reflexivity.
Qed.

(** The loop, from any point of the stream on. *)
Lemma read_loop_spec (ls seen : list pystr) :
  Forall (fun l : pystr => l <> []) ls ->
  read_loop (map Line ls) (from_first_open seen) (depth (concat seen))
    (has_open (concat seen))
  = Return
      match first_done seen ls with
      | Some k => {| lines := from_first_open (seen ++ firstn (S k) ls);
                     complete := true;
                     unread := map Line (skipn (S k) ls) |}
      | None => {| lines := from_first_open (seen ++ ls);
                   complete := false;
                   unread := [] |}
      end.
Proof.
  intros H; revert seen; induction H as [|l rest Hl _ IH]; intros seen.
  - simpl. rewrite app_nil_r. reflexivity.
  - cbn [map first_done]. rewrite read_loop_line by assumption. cbv zeta.
    assert (Hlines : (if has_open (concat seen) || has_open l
                      then from_first_open seen ++ [l]
                      else from_first_open seen)
                     = from_first_open (seen ++ [l])).
    { rewrite from_first_open_snoc.
      destruct (has_open (concat seen)) eqn:Hs; simpl; [reflexivity|].
      rewrite (from_first_open_closed _ Hs).
      destruct (has_open l); reflexivity. }
    rewrite Hlines.
    rewrite <- depth_app, <- has_open_app, <- concat_snoc.
    change (has_open (concat (seen ++ [l]))
            && (depth (concat (seen ++ [l])) =? 0)%Z)
      with (frame_done (seen ++ [l])).
    destruct (frame_done (seen ++ [l])).
    + reflexivity.
    + rewrite IH.
      destruct (first_done (seen ++ [l]) rest) as [k|]; cbn [option_map];
        rewrite <- app_assoc; reflexivity.
Qed.

End ReaderFacts.

Section FrameReader.
Import Bridge.




(** When no line completes the response, the loop runs to the end of the
    stream and keeps what it collected. *)
Lemma read_response_incomplete (ls : list pystr) :
  Forall (fun l : pystr => l <> []) ls ->
  (forall k, k < length ls -> frame_done (firstn (S k) ls) = false) ->
  read_response (map Line ls)
  = Return {| lines := from_first_open ls; complete := false; unread := [] |}.
Proof.
  intros Hne Hno.
  pose proof (read_loop_spec ls [] Hne) as Hspec.
  destruct (first_done [] ls) as [k|] eqn:Hf.
  - apply first_done_spec in Hf. destruct Hf as (Hk & Hd & _).
    cbn [app] in Hd. rewrite Hno in Hd by assumption. discriminate.
  - exact Hspec.
Qed.

End FrameReader.

(** ** ProcessBridge: [_send_command] *)

Section SendFacts.
Import Bridge.

Variable JsonValue : Type.
Variable json_dumps : pystr -> list pystr -> pystr.
Variable json_loads : pystr -> outcome JsonValue.

(** Once a worker is at hand (the held one is alive, or [Popen] returns a
    new one) and its stream delivers a response, a fault or its end (as
    every [Process] of the model does; a silent worker blocks the call),
    the call returns a value: a fault of [write], [flush], [readline] or
    [json.loads] becomes a failure dict. *)
Lemma send_command_returns (popen : outcome Process) (self : FastDexEditor)
    (command : pystr) (args : option (list pystr)) :
  needs_spawn self = false \/ (exists p, popen = Return p) ->
  exists r self',
    send_command json_dumps json_loads popen self command args
    = (Return r, self').
Proof.
  intros H. unfold send_command, ensure_process, needs_spawn in *.
  destruct (process self) as [p|] eqn:Hp.
  - destruct (exited p) eqn:He.
    + destruct H as [H|[p' ->]]; [discriminate|].
      cbn [process]. destruct (exchange json_dumps json_loads p' command _) as [[v|e] q];
        eauto.
    + rewrite Hp. destruct (exchange json_dumps json_loads p command _) as [[v|e] q];
        eauto.
  - destruct H as [H|[p' ->]]; [discriminate|].
    cbn [process]. destruct (exchange json_dumps json_loads p' command _) as [[v|e] q];
      eauto.
Qed.

(** When a new worker is needed and [Popen] raises, the exception leaves
    [_send_command]: [_ensure_process] is called before the [try]. *)
Lemma send_command_raises (e : exn) (self : FastDexEditor)
    (command : pystr) (args : option (list pystr)) :
  needs_spawn self = true ->
  send_command json_dumps json_loads (Raise e) self command args
  = (Raise e, self).
Proof.
  intros H. unfold send_command, ensure_process, needs_spawn in *.
  destruct (process self) as [p|]; [rewrite H|]; reflexivity.
Qed.

End SendFacts.

(** C2 (the code departs from the claim).  With no worker held and a
    [Popen] that raises because the [java] executable is missing, the call
    [_send_command("open", ["/tmp/app.apk"])] raises that exception to its
    caller and returns no result value; the same happens when the held
    worker has exited. *)
Theorem send_command_spawn_failure_raises :
  forall (JsonValue : Type) (json_dumps : pystr -> list pystr -> pystr)
         (json_loads : pystr -> Bridge.outcome JsonValue),
    let e := {| Bridge.exn_kind := Bridge.OSError;
                Bridge.exn_str :=
                  py "[Errno 2] No such file or directory: 'java'" |} in
    let dead := {| Bridge.exited := true; Bridge.write_fault := None;
                   Bridge.stdout := [] |} in
    Bridge.send_command json_dumps json_loads (Bridge.Raise e)
      {| Bridge.process := None |} (py "open") (Some [py "/tmp/app.apk"])
    = (Bridge.Raise e, {| Bridge.process := None |})
    /\ Bridge.send_command json_dumps json_loads (Bridge.Raise e)
         {| Bridge.process := Some dead |} (py "open")
         (Some [py "/tmp/app.apk"])
       = (Bridge.Raise e, {| Bridge.process := Some dead |}).
Proof. intros. split; apply send_command_raises; reflexivity. Qed.

(** * Further properties of the code *)

(** ** MethodEditor: extraction *)

Section ExtractFacts.

Variable name : pystr.

Local Abbreviation target := (is_target name).
Local Abbreviation inner l := (is_target name l = false /\ is_end l = false).

(** What the scan returns is a block of the lines it was given. *)
Lemma get_loop_sound (lines done : list pystr) (i : nat) (in_method : bool)
    (method_lines : list pystr) (start_line : nat) (r : MethodResult) :
  i = length done ->
  (in_method = true ->
   exists p s b, done = p ++ s :: b /\ target s = true /\
     Forall (fun l => inner l) b /\ method_lines = s :: b /\
     start_line = length p + 1) ->
  get_loop name lines i in_method method_lines start_line = Some r ->
  exists pre s body e post,
    done ++ lines = pre ++ s :: body ++ e :: post
    /\ target s = true
    /\ Forall (fun l => inner l) body
    /\ is_end e = true
    /\ r = {| mr_success := true;
              mr_method := join_nl (s :: body ++ [e]);
              mr_start_line := Some (length pre + 1);
              mr_end_line := Some (length pre + length body + 2);
              mr_error := [] |}.
Proof.
  revert done i in_method method_lines start_line.
  induction lines as [|line rest IH];
    intros done i in_method method_lines start_line Hi Hinv; simpl;
    [discriminate|].
  replace (done ++ line :: rest) with ((done ++ [line]) ++ rest)
    by (rewrite <- app_assoc; reflexivity).
  destruct (target line) eqn:Ht.
  - apply IH.
    + rewrite length_app. simpl. lia.
    + intros _. exists done, line, [].
      repeat split; auto; rewrite Hi; rewrite ?app_nil_r; reflexivity.
  - destruct in_method.
    + destruct (Hinv eq_refl) as (p & s & b & Hd & Hs & Hb & Hml & Hsl).
      destruct (is_end line) eqn:He.
      * intros Hr. injection Hr as <-.
        exists p, s, b, line, rest. repeat split; auto.
        -- rewrite Hd, <- !app_assoc. reflexivity.
        -- rewrite Hml, Hsl, Hi, Hd, length_app. simpl.
           replace (length p + S (length b) + 1)
             with (length p + length b + 2) by lia.
           reflexivity.
      * apply IH.
        -- rewrite length_app. simpl. lia.
        -- intros _. exists p, s, (b ++ [line]). repeat split; auto.
           ++ rewrite Hd, <- app_assoc. reflexivity.
           ++ apply Forall_app; split; [assumption|].
              constructor; [split; assumption | constructor].
           ++ rewrite Hml. reflexivity.
    + apply IH.
      * rewrite length_app. simpl. lia.
      * discriminate.
Qed.

(** X1.  Whatever [get_method_from_smali] returns as a success is a block
    of consecutive lines of the document: it starts at a line that contains
    [.method] and the target name, ends at a line that trims to
    [.end method], has neither kind of line strictly inside, and
    [start_line] and [end_line] are the 1-based numbers of its first and
    last line. *)
Theorem extract_returns_a_block (content : pystr) :
  mr_success (get_method_from_smali content name) = true ->
  exists pre s body e post,
    split_nl content = pre ++ s :: body ++ e :: post
    /\ is_target name s = true
    /\ Forall (fun l => is_target name l = false /\ is_end l = false) body
    /\ is_end e = true
    /\ get_method_from_smali content name
       = {| mr_success := true;
            mr_method := join_nl (s :: body ++ [e]);
            mr_start_line := Some (length pre + 1);
            mr_end_line := Some (length pre + length body + 2);
            mr_error := [] |}.
Proof.
  unfold get_method_from_smali.
  destruct (get_loop name (split_nl content) 0 false [] 0) as [r|] eqn:Hg;
    [|discriminate].
  intros _.
  destruct (get_loop_sound (split_nl content) [] 0 false [] 0 r eq_refl
              ltac:(discriminate) Hg)
    as (pre & s & body & e & post & E & Hs & Hb & He & ->).
  exists pre, s, body, e, post. auto.
Qed.

(** X2.  When the first line that contains [.method] and the target name
    is followed by lines that contain neither the pair nor an end marker and
    then by a line that trims to [.end method], extraction succeeds with
    exactly these lines and their 1-based line numbers; the error is
    empty. *)
Theorem extract_first_method (content : pystr) (pre : list pystr) (s : pystr)
    (body : list pystr) (e : pystr) (post : list pystr) :
  split_nl content = pre ++ s :: body ++ e :: post ->
  Forall (fun l => is_target name l = false) pre ->
  is_target name s = true ->
  Forall (fun l => is_target name l = false /\ is_end l = false) body ->
  is_end e = true ->
  get_method_from_smali content name
  = {| mr_success := true;
       mr_method := join_nl (s :: body ++ [e]);
       mr_start_line := Some (length pre + 1);
       mr_end_line := Some (length pre + length body + 2);
       mr_error := [] |}.
Proof.
  intros E Hpre Hs Hbody He. unfold get_method_from_smali.
  rewrite E, get_loop_span by assumption. reflexivity.
Qed.

Lemma get_loop_open (rest : list pystr) (i : nat) (ml : list pystr)
    (sl : nat) (im : bool) :
  Forall (fun l => is_end l = false) rest ->
  get_loop name rest i im ml sl = None.
Proof.
  intros H; revert i ml sl im;
    induction H as [|l rest He _ IH]; intros i ml sl im; simpl;
    [reflexivity|].
  destruct (target l); [apply IH|].
  destruct im; [rewrite He|]; apply IH.
Qed.

(** X3.  A method that is never closed is reported as not found: when no
    line trims to [.end method] after the first line that contains
    [.method] and the target name, extraction fails with
    [Method not found: <name>] although the start line is there. *)
Theorem extract_unterminated_not_found (content : pystr) (pre : list pystr)
    (s : pystr) (rest : list pystr) :
  split_nl content = pre ++ s :: rest ->
  Forall (fun l => is_target name l = false) pre ->
  is_target name s = true ->
  Forall (fun l => is_end l = false) rest ->
  get_method_from_smali content name
  = {| mr_success := false; mr_method := []; mr_start_line := None;
       mr_end_line := None; mr_error := py "Method not found: " ++ name |}.
Proof.
  intros E Hpre Hs Hrest. unfold get_method_from_smali.
  rewrite E, get_loop_skip by assumption. simpl. rewrite Hs.
  rewrite get_loop_open by assumption. reflexivity.
Qed.

End ExtractFacts.

Lemma extract_returns_a_block_witness :
  exists pre s body e post,
    split_nl (join_nl (py ".class LFoo;" :: foo_doc))
    = pre ++ s :: body ++ e :: post
    /\ is_target (py "foo") s = true
    /\ Forall (fun l => is_target (py "foo") l = false /\ is_end l = false)
         body
    /\ is_end e = true
    /\ get_method_from_smali (join_nl (py ".class LFoo;" :: foo_doc)) (py "foo")
       = {| mr_success := true;
            mr_method := join_nl (s :: body ++ [e]);
            mr_start_line := Some (length pre + 1);
            mr_end_line := Some (length pre + length body + 2);
            mr_error := [] |}.
Proof.
  apply (extract_returns_a_block (py "foo")
           (join_nl (py ".class LFoo;" :: foo_doc))).
  reflexivity.
Defined.

Lemma extract_first_method_witness :
  get_method_from_smali (join_nl (py ".class LFoo;" :: foo_doc)) (py "foo")
  = {| mr_success := true;
       mr_method := join_nl foo_doc;
       mr_start_line := Some 2;
       mr_end_line := Some 5;
       mr_error := [] |}.
Proof.
  apply (extract_first_method (py "foo")
           (join_nl (py ".class LFoo;" :: foo_doc))
           [py ".class LFoo;"] (py ".method public foo()V")
           [py ".locals 1"; py "return-void"] (py ".end method") []);
    try reflexivity; forall_lines.
Defined.

Lemma extract_unterminated_not_found_witness :
  get_method_from_smali (join_nl unterminated_doc) (py "foo")
  = {| mr_success := false; mr_method := []; mr_start_line := None;
       mr_end_line := None; mr_error := py "Method not found: foo" |}.
Proof.
  apply (extract_unterminated_not_found (py "foo") (join_nl unterminated_doc)
           [] (py ".method public foo()V") (tl unterminated_doc));
    try reflexivity; forall_lines.
Defined.

(** ** MethodEditor: replacement and insertion *)

Section EditFacts.

Variable name : pystr.

Local Abbreviation target := (is_target name).
Local Abbreviation plain l := (is_target name l = false).
Local Abbreviation inner l := (is_target name l = false /\ is_end l = false).

Lemma replace_loop_flag (new : pystr) (lines acc : list pystr)
    (im mr : bool) :
  snd (replace_loop name new lines acc im mr) = mr || existsb target lines.
Proof.
  revert acc im mr; induction lines as [|l lines IH]; intros acc im mr; simpl.
  - rewrite orb_false_r; reflexivity.
  - destruct (target l); [|destruct im]; rewrite IH; simpl;
      rewrite ?orb_true_r; reflexivity.
Qed.

Lemma insert_loop_flag (code position : pystr) (lines acc : list pystr)
    (im mf : bool) :
  snd (insert_loop name code position lines acc im mf)
  = mf || existsb target lines.
Proof.
  revert acc im mf; induction lines as [|l lines IH]; intros acc im mf; simpl.
  - rewrite orb_false_r; reflexivity.
  - destruct (target l); [|destruct im].
    + rewrite IH; simpl; rewrite ?orb_true_r; reflexivity.
    + destruct (str_eqb position (py "start") && is_locals l);
        [|destruct (is_end l)]; rewrite IH; reflexivity.
    + rewrite IH; reflexivity.
Qed.

(** X4.  [replace_method_in_smali] and [insert_smali_code] succeed
    exactly when some line of the document contains both [.method] and the
    target name; nothing else (an end marker, the position, a [.locals]
    line) is needed for success. *)
Theorem edit_succeeds_iff_target (content new code position : pystr) :
  success (replace_method_in_smali content name new)
  = existsb (is_target name) (split_nl content)
  /\ success (insert_smali_code content name code position)
     = existsb (is_target name) (split_nl content).
Proof.
  split.
  - unfold replace_method_in_smali.
    pose proof (replace_loop_flag new (split_nl content) [] false false) as H.
    destruct (replace_loop name new (split_nl content) [] false false)
      as [rl mr]. simpl in H. subst mr.
    destruct (existsb target (split_nl content)); reflexivity.
  - unfold insert_smali_code.
    pose proof (insert_loop_flag code position (split_nl content) [] false
                  false) as H.
    destruct (insert_loop name code position (split_nl content) [] false
                false) as [rl mf]. simpl in H. subst mf.
    destruct (existsb target (split_nl content)); reflexivity.
Qed.

Lemma join_nl_app (a b : list pystr) :
  a <> [] -> b <> [] -> join_nl (a ++ b) = join_nl a ++ NL :: join_nl b.
Proof.
  intros Ha Hb. induction a as [|x a IH]; [congruence|].
  destruct a as [|y a].
  - destruct b; [congruence | reflexivity].
  - change (join_nl ((x :: y :: a) ++ b))
      with (x ++ NL :: join_nl ((y :: a) ++ b)).
    rewrite IH by discriminate.
    change (join_nl (x :: y :: a)) with (x ++ NL :: join_nl (y :: a)).
    rewrite <- app_assoc. reflexivity.
Qed.

(** A joined block in a list of lines joins like its lines. *)
Lemma join_nl_block (pre block post : list pystr) :
  block <> [] ->
  join_nl (pre ++ join_nl block :: post) = join_nl (pre ++ block ++ post).
Proof.
  intros Hb.
  assert (Hmid : join_nl (join_nl block :: post) = join_nl (block ++ post)).
  { destruct post as [|q post].
    - rewrite app_nil_r. reflexivity.
    - rewrite join_nl_app by (assumption || discriminate). reflexivity. }
  destruct pre as [|p pre]; [exact Hmid|].
  assert (Hne : block ++ post <> [])
    by (destruct block; [congruence | discriminate]).
  rewrite (join_nl_app (p :: pre) (join_nl block :: post)) by discriminate.
  rewrite (join_nl_app (p :: pre) (block ++ post)) by (discriminate || exact Hne).
  rewrite Hmid. reflexivity.
Qed.

(** X5.  Putting back what was extracted changes nothing: when exactly
    one line of the document contains [.method] and the target name and its
    method is closed by an end marker, replacing the target by the text that
    [get_method_from_smali] returns for it gives the document back. *)
Theorem replace_by_extracted_is_identity (content : pystr)
    (pre : list pystr) (s : pystr) (body : list pystr) (e : pystr)
    (post : list pystr) :
  split_nl content = pre ++ s :: body ++ e :: post ->
  Forall (fun l => is_target name l = false) pre ->
  is_target name s = true ->
  Forall (fun l => is_target name l = false /\ is_end l = false) body ->
  is_end e = true ->
  Forall (fun l => is_target name l = false) post ->
  replace_method_in_smali content name
    (mr_method (get_method_from_smali content name))
  = {| success := true; content := content; error := [] |}.
Proof.
  intros E Hpre Hs Hbody He Hpost.
  unfold get_method_from_smali. rewrite E, get_loop_span by assumption.
  cbn [mr_method]. set (B := join_nl (s :: body ++ [e])).
  unfold replace_method_in_smali.
  rewrite E, replace_loop_first by assumption.
  rewrite replace_loop_body by assumption. cbn [replace_loop].
  rewrite (is_end_not_target name _ He), He.
  rewrite <- (app_nil_r post) at 1.
  rewrite replace_loop_skip by assumption. cbn [replace_loop fst app negb].
  f_equal. unfold B.
  rewrite (join_nl_block pre (s :: body ++ [e]) post) by discriminate.
  cbn [app]. rewrite <- app_assoc. cbn [app].
  rewrite <- E. apply join_split.
Qed.

(** *** Where the code is inserted *)

Variables code : pystr.

Lemma insert_loop_skip (position : pystr) (pre rest acc : list pystr)
    (mf : bool) :
  Forall (fun l => plain l) pre ->
  insert_loop name code position (pre ++ rest) acc false mf
  = insert_loop name code position rest (acc ++ pre) false mf.
Proof.
  intros H; revert acc; induction H as [|l pre Hl _ IH]; intros acc; simpl.
  - rewrite app_nil_r; reflexivity.
  - rewrite Hl, IH, <- app_assoc. reflexivity.
Qed.

Lemma insert_loop_tail (position : pystr) (post acc : list pystr) (mf : bool) :
  Forall (fun l => plain l) post ->
  insert_loop name code position post acc false mf = (acc ++ post, mf).
Proof.
  intros H. rewrite <- (app_nil_r post) at 1.
  rewrite insert_loop_skip by assumption. reflexivity.
Qed.

Lemma insert_before_last_snoc (A : Type) (x e : A) (l : list A) :
  insert_before_last x (l ++ [e]) = l ++ [x; e].
Proof.
  unfold insert_before_last. rewrite length_app. simpl.
  replace (length l + 1 - 1) with (length l) by lia.
  rewrite firstn_app, skipn_app, firstn_all, skipn_all, Nat.sub_diag.
  simpl. rewrite app_nil_r. reflexivity.
Qed.

Lemma insert_end_body (body rest acc : list pystr) (mf : bool) :
  Forall (fun l => inner l) body ->
  insert_loop name code (py "end") (body ++ rest) acc true mf
  = insert_loop name code (py "end") rest (acc ++ body) true mf.
Proof.
  intros H; revert acc; induction H as [|l body [Hl He] _ IH]; intros acc;
    simpl.
  - rewrite app_nil_r; reflexivity.
  - rewrite Hl, He. change (str_eqb (py "end") (py "start")) with false.
    cbn [andb]. rewrite IH, <- app_assoc. reflexivity.
Qed.

(** The scan at [end] over a document with one matching, closed method. *)
Lemma insert_end_scan (pre : list pystr) (s : pystr) (body : list pystr)
    (e : pystr) (post : list pystr) :
  Forall (fun l => plain l) pre ->
  target s = true ->
  Forall (fun l => inner l) body ->
  is_end e = true ->
  Forall (fun l => plain l) post ->
  insert_loop name code (py "end") (pre ++ s :: body ++ e :: post) [] false
    false
  = (pre ++ s :: body ++ code :: e :: post, true).
Proof.
  intros Hpre Hs Hbody He Hpost.
  rewrite insert_loop_skip by assumption. cbn [insert_loop]. rewrite Hs.
  rewrite insert_end_body by assumption. cbn [insert_loop].
  rewrite (is_end_not_target name _ He), He.
  change (str_eqb (py "end") (py "start")) with false.
  change (str_eqb (py "end") (py "end")) with true. cbn [andb].
  rewrite insert_before_last_snoc, insert_loop_tail by assumption.
  rewrite <- !app_assoc. reflexivity.
Qed.

(** X6.  At [end], with exactly one line that contains [.method] and the
    target name and a closed method, the result is the document with the
    code as one new element right before the method's end marker; every
    other line is unchanged and in place. *)
Theorem insert_end_before_end_marker (content : pystr)
    (pre : list pystr) (s : pystr) (body : list pystr) (e : pystr)
    (post : list pystr) :
  split_nl content = pre ++ s :: body ++ e :: post ->
  Forall (fun l => is_target name l = false) pre ->
  is_target name s = true ->
  Forall (fun l => is_target name l = false /\ is_end l = false) body ->
  is_end e = true ->
  Forall (fun l => is_target name l = false) post ->
  insert_smali_code content name code (py "end")
  = {| success := true;
       content := join_nl (pre ++ s :: body ++ code :: e :: post);
       error := [] |}.
Proof.
  intros E Hpre Hs Hbody He Hpost. unfold insert_smali_code.
  rewrite E, insert_end_scan by assumption. reflexivity.
Qed.

Lemma is_end_not_locals (l : pystr) : is_end l = true -> is_locals l = false.
Proof.
  unfold is_end, is_locals. intros H. apply str_eqb_eq in H. rewrite H.
  reflexivity.
Qed.

Lemma insert_start_body (body rest acc : list pystr) (mf : bool) :
  Forall (fun l => inner l) body ->
  insert_loop name code (py "start") (body ++ rest) acc true mf
  = insert_loop name code (py "start") rest (acc ++ after_locals code body)
      true mf.
Proof.
  intros H; revert acc; induction H as [|l body [Hl He] _ IH]; intros acc;
    simpl.
  - rewrite app_nil_r; reflexivity.
  - rewrite Hl. change (str_eqb (py "start") (py "start")) with true.
    cbn [andb]. destruct (is_locals l).
    + rewrite IH, <- !app_assoc. reflexivity.
    + rewrite He, IH, <- !app_assoc. reflexivity.
Qed.

(** X7.  At [start], with exactly one line that contains [.method] and
    the target name and a closed method, the code is added as a new element
    after every line of the method that begins, after trimming, with
    [.locals] (after each of them when there are several), and every other
    line is unchanged and in place. *)
Theorem insert_start_after_locals (content : pystr)
    (pre : list pystr) (s : pystr) (body : list pystr) (e : pystr)
    (post : list pystr) :
  split_nl content = pre ++ s :: body ++ e :: post ->
  Forall (fun l => is_target name l = false) pre ->
  is_target name s = true ->
  Forall (fun l => is_target name l = false /\ is_end l = false) body ->
  is_end e = true ->
  Forall (fun l => is_target name l = false) post ->
  insert_smali_code content name code (py "start")
  = {| success := true;
       content := join_nl (pre ++ s :: after_locals code body ++ e :: post);
       error := [] |}.
Proof.
  intros E Hpre Hs Hbody He Hpost. unfold insert_smali_code.
  rewrite E, insert_loop_skip by assumption. cbn [insert_loop]. rewrite Hs.
  rewrite insert_start_body by assumption. cbn [insert_loop].
  rewrite (is_end_not_target name _ He), He, (is_end_not_locals _ He).
  change (str_eqb (py "start") (py "end")) with false.
  rewrite andb_false_r.
  rewrite insert_loop_tail by assumption.
  cbn [negb]. rewrite <- !app_assoc. reflexivity.
Qed.

Lemma insert_end_open (rest acc : list pystr) (im mf : bool) :
  Forall (fun l => is_end l = false) rest ->
  insert_loop name code (py "end") rest acc im mf
  = (acc ++ rest, mf || existsb target rest).
Proof.
  intros H; revert acc im mf; induction H as [|l rest He _ IH];
    intros acc im mf; simpl.
  - rewrite app_nil_r, orb_false_r; reflexivity.
  - change (str_eqb (py "end") (py "start")) with false. cbn [andb].
    rewrite He.
    destruct (target l); [|destruct im]; rewrite IH, <- app_assoc;
      rewrite ?orb_true_r; reflexivity.
Qed.

(** X8.  At [end], a method that is never closed receives nothing: when
    the document has a line that contains [.method] and the target name but
    no line that trims to [.end method], the call reports success and
    returns the document unchanged. *)
Theorem insert_end_unterminated_is_noop (content : pystr) :
  existsb (is_target name) (split_nl content) = true ->
  Forall (fun l => is_end l = false) (split_nl content) ->
  insert_smali_code content name code (py "end")
  = {| success := true; content := content; error := [] |}.
Proof.
  intros Hex Hopen. unfold insert_smali_code.
  rewrite insert_end_open by assumption. rewrite Hex. simpl.
  rewrite join_split. reflexivity.
Qed.

End EditFacts.

Lemma replace_by_extracted_is_identity_witness :
  replace_method_in_smali
    (join_nl (py ".class LFoo;" :: foo_doc ++ [py "# end"])) (py "foo")
    (mr_method
       (get_method_from_smali
          (join_nl (py ".class LFoo;" :: foo_doc ++ [py "# end"])) (py "foo")))
  = {| success := true;
       content := join_nl (py ".class LFoo;" :: foo_doc ++ [py "# end"]);
       error := [] |}.
Proof.
  apply (replace_by_extracted_is_identity (py "foo")
           (join_nl (py ".class LFoo;" :: foo_doc ++ [py "# end"]))
           [py ".class LFoo;"] (py ".method public foo()V")
           [py ".locals 1"; py "return-void"] (py ".end method") [py "# end"]);
    try reflexivity; forall_lines.
Defined.

Lemma insert_end_before_end_marker_witness :
  insert_smali_code
    (join_nl (py ".class LFoo;" :: foo_doc ++ [py "# end"])) (py "foo")
    (py "nop") (py "end")
  = {| success := true;
       content := join_nl [py ".class LFoo;"; py ".method public foo()V";
                           py ".locals 1"; py "return-void"; py "nop";
                           py ".end method"; py "# end"];
       error := [] |}.
Proof.
  apply (insert_end_before_end_marker (py "foo") (py "nop")
           (join_nl (py ".class LFoo;" :: foo_doc ++ [py "# end"]))
           [py ".class LFoo;"] (py ".method public foo()V")
           [py ".locals 1"; py "return-void"] (py ".end method") [py "# end"]);
    try reflexivity; forall_lines.
Defined.

Lemma insert_start_after_locals_witness :
  insert_smali_code
    (join_nl [py ".method public foo()V"; py "  .locals 1"; py "  .locals 2";
              py "  return-void"; py ".end method"])
    (py "foo") (py "nop") (py "start")
  = {| success := true;
       content := join_nl [py ".method public foo()V"; py "  .locals 1";
                           py "nop"; py "  .locals 2"; py "nop";
                           py "  return-void"; py ".end method"];
       error := [] |}.
Proof.
  apply (insert_start_after_locals (py "foo") (py "nop")
           (join_nl [py ".method public foo()V"; py "  .locals 1";
                     py "  .locals 2"; py "  return-void"; py ".end method"])
           [] (py ".method public foo()V")
           [py "  .locals 1"; py "  .locals 2"; py "  return-void"]
           (py ".end method") []);
    try reflexivity; forall_lines.
Defined.

Lemma insert_end_unterminated_is_noop_witness :
  insert_smali_code (join_nl unterminated_doc) (py "foo") (py "nop")
    (py "end")
  = {| success := true; content := join_nl unterminated_doc; error := [] |}.
Proof.
  apply (insert_end_unterminated_is_noop (py "foo") (py "nop")
           (join_nl unterminated_doc));
    [reflexivity | forall_lines].
Defined.


(** ** MethodEditor: what happens after the first matched method *)

Section AfterFirstMethod.

Variable name : pystr.

Local Abbreviation target := (is_target name).
Local Abbreviation plain l := (is_target name l = false).
Local Abbreviation inner l := (is_target name l = false /\ is_end l = false).









End AfterFirstMethod.



(** ** MethodEditor: insertion, then extraction *)

Section InsertExtract.

Variable name : pystr.

(** X9.  Code inserted at [end] becomes the last instruction of the
    extracted method: for a one-line code text that neither contains
    [.method] with the target name nor trims to [.end method], and a
    document with exactly one matching, closed method, extracting the
    target from the result of the insertion returns the old span with the
    code right before its end marker, and the end line number is one
    higher. *)
Theorem insert_end_then_extract (code content : pystr)
    (pre : list pystr) (s : pystr) (body : list pystr) (e : pystr)
    (post : list pystr) :
  split_nl content = pre ++ s :: body ++ e :: post ->
  Forall (fun l => is_target name l = false) pre ->
  is_target name s = true ->
  Forall (fun l => is_target name l = false /\ is_end l = false) body ->
  is_end e = true ->
  Forall (fun l => is_target name l = false) post ->
  ~ In NL code -> is_target name code = false -> is_end code = false ->
  get_method_from_smali
    (MethodEditor.content (insert_smali_code content name code (py "end")))
    name
  = {| mr_success := true;
       mr_method := join_nl (s :: body ++ [code; e]);
       mr_start_line := Some (length pre + 1);
       mr_end_line := Some (length pre + length body + 3);
       mr_error := [] |}.
Proof.
  intros E Hpre Hs Hbody He Hpost Hnl Hct Hce.
  unfold insert_smali_code.
  rewrite E, (insert_end_scan name code pre s body e post) by assumption.
  cbn [negb MethodEditor.content].
  pose proof (split_nl_no_nl content) as Hlines. rewrite E in Hlines.
  assert (Hsplit : split_nl (join_nl (pre ++ s :: body ++ code :: e :: post))
                   = pre ++ s :: (body ++ [code]) ++ e :: post).
  { rewrite <- app_assoc. cbn [app]. apply split_join.
    - destruct pre; discriminate.
    - apply Forall_app in Hlines. destruct Hlines as [H1 H2].
      apply Forall_app. split; [exact H1|].
      inversion H2 as [|? ? Hs' H3]; subst. constructor; [exact Hs'|].
      apply Forall_app in H3. destruct H3 as [H4 H5].
      apply Forall_app. split; [exact H4|].
      constructor; assumption. }
  unfold get_method_from_smali. rewrite Hsplit.
  rewrite get_loop_span; try assumption.
  - rewrite <- app_assoc, length_app. cbn [app length].
    replace (length pre + (length body + 1) + 2)
      with (length pre + length body + 3) by lia.
    reflexivity.
  - apply Forall_app. split; [assumption|].
    constructor; [split; assumption | constructor].
Qed.

End InsertExtract.

Lemma insert_end_then_extract_witness :
  get_method_from_smali
    (MethodEditor.content
       (insert_smali_code (join_nl (py ".class LFoo;" :: foo_doc)) (py "foo")
          (py "nop") (py "end")))
    (py "foo")
  = {| mr_success := true;
       mr_method := join_nl [py ".method public foo()V"; py ".locals 1";
                             py "return-void"; py "nop"; py ".end method"];
       mr_start_line := Some 2;
       mr_end_line := Some 6;
       mr_error := [] |}.
Proof.
  apply (insert_end_then_extract (py "foo") (py "nop")
           (join_nl (py ".class LFoo;" :: foo_doc))
           [py ".class LFoo;"] (py ".method public foo()V")
           [py ".locals 1"; py "return-void"] (py ".end method") []);
    try reflexivity; try forall_lines.
  vm_compute; intuition discriminate.
Defined.

(** ** Code-snippet generators *)

Section SnippetFacts.

Lemma last_app_nonempty (A : Type) (x y : list A) (d : A) :
  y <> [] -> last (x ++ y) d = last y d.
Proof.
  intros Hy. induction x as [|a x IH]; [reflexivity|].
  simpl. rewrite IH. destruct (x ++ y) eqn:E; [|reflexivity].
  apply app_eq_nil in E. destruct E; congruence.
Qed.

(** The last line of a text is the last line of what follows a line
    break. *)
Lemma last_line_after_break (a b : pystr) :
  last (split_nl (a ++ NL :: b)) [] = last (split_nl b) [].
Proof.
  rewrite split_nl_app. apply last_app_nonempty. apply split_nl_not_nil.
Qed.

(** X10.  Whatever the return type and the value are, the snippet of
    [generate_return_smali] ends with a return instruction: its last line
    begins with four spaces and [return].  For a return type the function
    has no branch for (none of [V], [Z], [I], [S], [B], [C], [J], and
    beginning with neither [L] nor an opening bracket), such as [F] or [D],
    the whole snippet is [return-void], whatever the value. *)
Theorem generate_return_ends_with_return (return_type : pystr)
    (value : option pystr) :
  startswith (last (split_nl (generate_return_smali return_type value)) [])
    (py "    return") = true
  /\ (known_return_type return_type = false ->
      generate_return_smali return_type value = py "    return-void")
  /\ generate_return_smali (py "F") value = py "    return-void"
  /\ generate_return_smali (py "D") value = py "    return-void".
Proof.
  split; [|split; [|split; reflexivity]].
  - unfold generate_return_smali.
    repeat match goal with
    | |- context [if ?c then _ else _] => destruct c
    end;
    try reflexivity;
    rewrite ?app_assoc;
    match goal with
    | |- context [split_nl (?a ++ [NL] ++ ?b)] =>
        change (a ++ [NL] ++ b) with (a ++ NL :: b);
        rewrite last_line_after_break; reflexivity
    | |- context [split_nl ((?a ++ [NL]) ++ ?b)] =>
        rewrite <- (app_assoc a [NL] b);
        change (a ++ [NL] ++ b) with (a ++ NL :: b);
        rewrite last_line_after_break; reflexivity
    end.
  - unfold known_return_type, generate_return_smali. intros H.
    repeat rewrite orb_false_iff in H.
    destruct H as [[[[[HV HZ] HI] HJ] HL] HB].
    rewrite HV, HZ, HI, HJ, HL, HB. reflexivity.
Qed.

Lemma replace_0_by_1_id (register : pystr) :
  ~ In 48%N register -> replace_0_by_1 register = register.
Proof.
  unfold replace_0_by_1. induction register as [|c r IH]; intros H;
    [reflexivity|].
  simpl. destruct (N.eqb_spec c 48) as [->|_]; [simpl in H; tauto|].
  rewrite IH by (simpl in H; tauto). reflexivity.
Qed.

Lemma no_nl_app (a b : pystr) : ~ In NL a -> ~ In NL b -> ~ In NL (a ++ b).
Proof. intros Ha Hb H. apply in_app_or in H. tauto. Qed.

Lemma no_nl_replace (register : pystr) :
  ~ In NL register -> ~ In NL (replace_0_by_1 register).
Proof.
  unfold replace_0_by_1. intros H Hin. apply in_map_iff in Hin.
  destruct Hin as (c & Hc & Hin).
  destruct (N.eqb c 48); [discriminate|].
  rewrite Hc in Hin. tauto.
Qed.

(** X11.  For a tag, a message and a register name without line breaks
    the log snippet has exactly five lines: an empty one, the
    [const-string] of the tag into the register, the [const-string] of the
    message into the register name with every [0] turned into [1], the
    [invoke-static] of [Log.d] on the two, and an empty one. *)
Theorem generate_log_lines (tag message register : pystr) :
  ~ In NL tag -> ~ In NL message -> ~ In NL register ->
  split_nl (generate_log_smali tag message register)
  = [ [];
      py "    const-string " ++ register ++ py ", " ++ [QUOTE] ++ tag
        ++ [QUOTE];
      py "    const-string " ++ replace_0_by_1 register ++ py ", " ++ [QUOTE]
        ++ message ++ [QUOTE];
      py "    invoke-static {" ++ register ++ py ", "
        ++ replace_0_by_1 register
        ++ py "}, Landroid/util/Log;->d(Ljava/lang/String;Ljava/lang/String;)I";
      [] ].
Proof.
  intros Ht Hm Hr.
  pose proof (no_nl_replace register Hr) as Hr1.
  set (l1 := py "    const-string " ++ register ++ py ", " ++ [QUOTE] ++ tag
               ++ [QUOTE]).
  set (l2 := py "    const-string " ++ replace_0_by_1 register ++ py ", "
               ++ [QUOTE] ++ message ++ [QUOTE]).
  set (l3 := py "    invoke-static {" ++ register ++ py ", "
               ++ replace_0_by_1 register
               ++ py "}, Landroid/util/Log;->d(Ljava/lang/String;Ljava/lang/String;)I").
  assert (E : generate_log_smali tag message register
              = join_nl [[]; l1; l2; l3; []]).
  { unfold generate_log_smali, l1, l2, l3. cbn [join_nl].
    rewrite <- !app_assoc. reflexivity. }
  rewrite E. apply split_join; [discriminate|].
  assert (Hq : ~ In NL [QUOTE]) by (simpl; intros [H|[]]; discriminate).
  repeat constructor; try (simpl; tauto); unfold l1, l2, l3;
    repeat (apply no_nl_app; try assumption);
    vm_compute; intuition discriminate.
Qed.

(** X12.  When the register name contains no [0] (as [v1] or [p2]),
    [generate_log_smali] loads the message into the very register that
    holds the tag, and calls [Log.d] with that register twice. *)
Theorem generate_log_same_register (tag message register : pystr) :
  ~ In 48%N register ->
  generate_log_smali tag message register
  = [NL] ++ py "    const-string " ++ register ++ py ", " ++ [QUOTE] ++ tag
         ++ [QUOTE; NL]
    ++ py "    const-string " ++ register ++ py ", " ++ [QUOTE] ++ message
         ++ [QUOTE; NL]
    ++ py "    invoke-static {" ++ register ++ py ", " ++ register
         ++ py "}, Landroid/util/Log;->d(Ljava/lang/String;Ljava/lang/String;)I"
         ++ [NL].
Proof.
  intros H. unfold generate_log_smali. rewrite (replace_0_by_1_id _ H).
  reflexivity.
Qed.

End SnippetFacts.

Lemma generate_log_lines_witness :
  split_nl (generate_log_smali (py "TAG") (py "hello") (py "v0"))
  = [ [];
      py "    const-string v0, " ++ [QUOTE] ++ py "TAG" ++ [QUOTE];
      py "    const-string v1, " ++ [QUOTE] ++ py "hello" ++ [QUOTE];
      py "    invoke-static {v0, v1}, Landroid/util/Log;->d(Ljava/lang/String;Ljava/lang/String;)I";
      [] ].
Proof.
  apply (generate_log_lines (py "TAG") (py "hello") (py "v0"));
    vm_compute; intuition discriminate.
Defined.

Lemma generate_log_same_register_witness :
  generate_log_smali (py "TAG") (py "hello") (py "v1")
  = [NL] ++ py "    const-string v1, " ++ [QUOTE] ++ py "TAG" ++ [QUOTE; NL]
    ++ py "    const-string v1, " ++ [QUOTE] ++ py "hello" ++ [QUOTE; NL]
    ++ py "    invoke-static {v1, v1}, Landroid/util/Log;->d(Ljava/lang/String;Ljava/lang/String;)I"
    ++ [NL].
Proof.
  apply (generate_log_same_register (py "TAG") (py "hello") (py "v1")).
  vm_compute; intuition discriminate.
Defined.

(** ** SmaliDocumentModel: the methods of the result *)

Section MethodsFacts.
Import Parser.

Variable unicode_alnum : char -> bool.

Local Abbreviation step := (parse_line unicode_alnum).
Local Abbreviation run := (parse_lines unicode_alnum).

(** One line either closes the open method (case 2) or leaves the methods
    as they are; a method is opened only by a line that begins with
    [.method]. *)
Lemma step_shape (st : ParseState) (raw : pystr) :
  (methods (result (step st raw)) = methods (result st) /\
   (current_method (step st raw) = current_method st \/
    startswith (strip raw) (py ".method") = true))
  \/
  (startswith (strip raw) (py ".end method") = true /\
   exists m, current_method st = Some m /\
     current_method (step st raw) = None /\
     methods (result (step st raw))
     = methods (result st) ++
       [{| header := m;
           body := join_nl (method_lines st ++ [strip raw]);
           line_count := length (method_lines st ++ [strip raw]) |}]).
Proof.
  destruct (startswith (strip raw) (py ".end method")) eqn:Hend.
  - rewrite end_prefix_branch by assumption.
    destruct (current_method st) as [m|] eqn:Hm.
    + right. split; [reflexivity|]. exists m. auto.
    + left. rewrite Hm. auto.
  - left. unfold parse_line. rewrite Hend.
    repeat match goal with
    | |- context [if ?c then _ else _] => destruct c eqn:?
    | |- context [match Re.search ?r ?l with _ => _ end] =>
        destruct (Re.search r l)
    | |- context [match ?l with [] => _ | _ :: _ => _ end] => destruct l
    | |- context [match current_method st with _ => _ end] =>
        destruct (current_method st) eqn:?
    end; simpl; auto.
Qed.

Lemma count_prefix_snoc (prefix : pystr) (seen : list pystr) (raw : pystr) :
  count_prefix prefix (seen ++ [raw])
  = count_prefix prefix seen
    + (if startswith (strip raw) prefix then 1 else 0).
Proof.
  unfold count_prefix. rewrite filter_app, length_app. simpl.
  destruct (startswith (strip raw) prefix); reflexivity.
Qed.

Lemma run_snoc (seen : list pystr) (raw : pystr) :
  run (seen ++ [raw]) = step (run seen) raw.
Proof. unfold parse_lines. rewrite fold_left_app. reflexivity. Qed.

Lemma methods_bounded_by_markers (seen : list pystr) :
  length (methods (result (run seen))) + n_open (run seen)
  <= count_prefix (py ".method") seen
  /\ length (methods (result (run seen)))
     <= count_prefix (py ".end method") seen.
Proof.
  induction seen as [|raw seen [IH1 IH2]] using rev_ind.
  - split; vm_compute; lia.
  - rewrite run_snoc, !count_prefix_snoc.
    destruct (step_shape (run seen) raw)
      as [[Hm [Hc|Hs]] | [He (m & Hm & Hc & Hms)]].
    + rewrite Hm. unfold n_open in *. rewrite Hc. split; lia.
    + rewrite Hm, Hs. unfold n_open in *.
      destruct (current_method (step (run seen) raw));
        destruct (current_method (run seen)); split; lia.
    + rewrite Hms, He, length_app. unfold n_open in *.
      rewrite Hc. rewrite Hm in IH1. simpl. split; lia.
Qed.

(** X13.  The parser reports at most as many methods as there are lines
    that begin, after trimming, with [.method], and at most as many as
    there are lines that begin with [.end method]: a document without one
    of the two markers has no methods. *)
Theorem methods_count_bounded (content : pystr) :
  length (methods (parse_smali_class unicode_alnum content))
  <= Nat.min (count_prefix (py ".method") (split_nl content))
             (count_prefix (py ".end method") (split_nl content)).
Proof.
  unfold parse_smali_class.
  destruct (methods_bounded_by_markers (split_nl content)) as [H1 H2].
  apply Nat.min_glb; lia.
Qed.

Lemma methods_grow (more : list pystr) (st : ParseState) :
  exists added,
    methods (result (fold_left step more st)) = methods (result st) ++ added.
Proof.
  revert st; induction more as [|raw more IH]; intros st; simpl.
  - exists []. rewrite app_nil_r. reflexivity.
  - destruct (IH (step st raw)) as [added Ha].
    destruct (step_shape st raw) as [[Hm _] | [_ (m & _ & _ & Hms)]].
    + exists added. rewrite Ha, Hm. reflexivity.
    + eexists. rewrite Ha, Hms, <- app_assoc. reflexivity.
Qed.

(** X14.  Text appended to a class file after a line break never changes
    or removes a method that was already parsed: the methods of the shorter
    text are a prefix of the methods of the longer one. *)
Theorem methods_prefix_of_longer_text (content more : pystr) :
  exists added,
    methods (parse_smali_class unicode_alnum (content ++ NL :: more))
    = methods (parse_smali_class unicode_alnum content) ++ added.
Proof.
  unfold parse_smali_class, parse_lines.
  rewrite split_nl_app, fold_left_app. apply methods_grow.
Qed.

Lemma framed_methods_reachable (seen : list pystr) :
  Forall framed_method (methods (result (run seen))).
Proof.
  induction seen as [|raw seen IH] using rev_ind.
  - constructor.
  - rewrite run_snoc.
    destruct (step_shape (run seen) raw)
      as [[Hm _] | [He (m & Hm & _ & Hms)]].
    + rewrite Hm. exact IH.
    + rewrite Hms. apply Forall_app. split; [exact IH|].
      constructor; [|constructor].
      destruct (open_method_inv_reachable unicode_alnum seen m Hm)
        as (Hsig & inner & E).
      exists inner, (strip raw). cbn [body header line_count].
      rewrite E. repeat split; try assumption.
      change ((full_signature m :: inner) ++ [strip raw])
        with (full_signature m :: inner ++ [strip raw]).
      cbn [length]. rewrite length_app. cbn [length]. lia.
Qed.

(** X15.  Every method of the parse result is framed by its markers: its
    body is the join of its start line (the recorded full signature, which
    begins with [.method]), the lines collected after it, and a last line
    that begins with [.end method]; [line_count] is the number of these
    lines, so it is at least 2. *)
Theorem parsed_methods_are_framed (content : pystr) :
  Forall framed_method (methods (parse_smali_class unicode_alnum content)).
Proof. apply framed_methods_reachable. Qed.

End MethodsFacts.

(** ** SmaliDocumentModel: the lines of a body *)

Section TrimFacts.
Import Parser.

Lemma lstrip_head (s : pystr) :
  match lstrip s with
  | [] => True
  | c :: _ => isspace c = false
  end.
Proof.
  induction s as [|c s IH]; simpl; [exact I|].
  destruct (isspace c) eqn:Hc; [exact IH | exact Hc].
Qed.

Lemma lstrip_fixed (s : pystr) :
  match s with
  | [] => True
  | c :: _ => isspace c = false
  end -> lstrip s = s.
Proof. destruct s as [|c s]; simpl; [reflexivity|]. intros ->. reflexivity. Qed.

Lemma lstrip_idempotent (s : pystr) : lstrip (lstrip s) = lstrip s.
Proof. apply lstrip_fixed, lstrip_head. Qed.

Lemma lstrip_snoc (a : pystr) (c : char) :
  isspace c = false -> lstrip (a ++ [c]) = lstrip a ++ [c].
Proof.
  intros Hc. induction a as [|x a IH]; simpl.
  - rewrite Hc. reflexivity.
  - destruct (isspace x); [exact IH | reflexivity].
Qed.

Lemma rstrip_cons (c : char) (t : pystr) :
  isspace c = false -> rstrip (c :: t) = c :: rstrip t.
Proof.
  intros Hc. unfold rstrip. simpl rev.
  rewrite lstrip_snoc by assumption. rewrite rev_app_distr. reflexivity.
Qed.

Lemma rstrip_idempotent (s : pystr) : rstrip (rstrip s) = rstrip s.
Proof.
  unfold rstrip. rewrite rev_involutive, lstrip_idempotent. reflexivity.
Qed.

(** Trimming a trimmed text changes nothing. *)
Lemma strip_idempotent (s : pystr) : strip (strip s) = strip s.
Proof.
  unfold strip. pose proof (lstrip_head s) as Hh.
  destruct (lstrip s) as [|c t]; [reflexivity|].
  rewrite rstrip_cons by assumption.
  cbn [lstrip]. rewrite Hh.
  rewrite rstrip_cons, rstrip_idempotent by assumption. reflexivity.
Qed.

Variable unicode_alnum : char -> bool.

Local Abbreviation step := (parse_line unicode_alnum).

Lemma collected_lines_trimmed_step (st : ParseState) (raw : pystr) :
  Forall (fun l => strip l = l) (method_lines st) ->
  Forall (fun l => strip l = l) (method_lines (step st raw)).
Proof.
  intros H. unfold parse_line.
  repeat match goal with
  | |- context [if ?c then _ else _] => destruct c
  | |- context [match Re.search ?r ?l with _ => _ end] =>
      destruct (Re.search r l)
  | |- context [match ?l with [] => _ | _ :: _ => _ end] => destruct l
  | |- context [match current_method st with _ => _ end] =>
      destruct (current_method st)
  end; simpl; try assumption; try constructor;
  try (apply Forall_app; split; [assumption|]);
  repeat constructor; apply strip_idempotent.
Qed.

Lemma trimmed_reachable (seen : list pystr) :
  Forall (fun l => strip l = l)
    (method_lines (parse_lines unicode_alnum seen))
  /\ Forall (fun m => exists ls, body m = join_nl ls /\
                        Forall (fun l => strip l = l) ls /\
                        line_count m = length ls)
       (methods (result (parse_lines unicode_alnum seen))).
Proof.
  induction seen as [|raw seen [IH1 IH2]] using rev_ind.
  - split; constructor.
  - rewrite run_snoc. split.
    + apply collected_lines_trimmed_step. exact IH1.
    + destruct (step_shape unicode_alnum (parse_lines unicode_alnum seen) raw)
        as [[Hm _] | [He (m & Hm & _ & Hms)]].
      * rewrite Hm. exact IH2.
      * rewrite Hms. apply Forall_app. split; [exact IH2|].
        constructor; [|constructor].
        eexists. cbn [body line_count]. split; [reflexivity|].
        split; [|reflexivity].
        apply Forall_app. split; [exact IH1|].
        constructor; [apply strip_idempotent | constructor].
Qed.

(** X16.  The body of a parsed method is built from trimmed lines, not
    from the text of the file: it is the join of [line_count] lines, none of
    which starts or ends with white space, so the indentation of the
    source is lost in [body]. *)
Theorem parsed_bodies_are_trimmed (content : pystr) :
  Forall (fun m => exists ls, body m = join_nl ls /\
                     Forall (fun l => strip l = l) ls /\
                     line_count m = length ls)
    (methods (parse_smali_class unicode_alnum content)).
Proof. apply trimmed_reachable. Qed.

End TrimFacts.

(** ** ProcessBridge: whole exchanges *)

Section ExchangeFacts.
Import Bridge.

Variable JsonValue : Type.
Variable json_dumps : pystr -> list pystr -> pystr.
Variable json_loads : pystr -> outcome JsonValue.
Variable popen : outcome Process.

Local Abbreviation send := (send_command json_dumps json_loads popen).

Local Abbreviation decoded := (Vocabulary2.decoded json_loads).

Lemma from_first_open_some (ls : list pystr) :
  has_open (concat ls) = true -> from_first_open ls <> [].
Proof.
  induction ls as [|l ls IH]; simpl; [discriminate|].
  rewrite has_open_app. destruct (has_open l); simpl; [discriminate|].
  exact IH.
Qed.

Lemma has_open_firstn (ls : list pystr) (n : nat) :
  has_open (concat ls) = false -> has_open (concat (firstn n ls)) = false.
Proof.
  revert n; induction ls as [|l ls IH]; intros [|n]; simpl; auto.
  rewrite !has_open_app. intros H. apply orb_false_iff in H.
  destruct H as [-> H]. simpl. auto.
Qed.

(** An exchange on a live worker whose reading ends with the frame [f]. *)
Lemma send_on_live (p : Process) (command : pystr)
    (args : option (list pystr)) (f : Frame) :
  live p ->
  read_response (stdout p) = Return f ->
  send {| process := Some p |} command args
  = (Return match lines f with
            | [] => Failure JsonValue (py "No response from dex-editor")
            | _ :: _ => decoded (response_text f)
            end,
     {| process := Some {| exited := false; write_fault := None;
                           stdout := unread f |} |}).
Proof.
  intros [Hlive Hw] Hr.
  unfold send_command, ensure_process. cbn [process]. rewrite Hlive.
  cbn [process]. unfold exchange. rewrite Hw, Hr, Hlive.
  unfold decoded.
  destruct (lines f); [reflexivity|].
  destruct (json_loads (response_text f)); reflexivity.
Qed.

(** X17.  A response is read up to its completing line and no further:
    on a live worker whose output is the lines [ls], of which line [k] is
    the first to complete a response, [_send_command] decodes the text from
    the line with the first [{] through line [k] (a decoding fault becomes
    a failure value), and the lines after line [k] stay unread for the next
    exchange. *)
Theorem send_reads_one_response (p : Process) (command : pystr)
    (args : option (list pystr)) (ls : list pystr) (k : nat) :
  live p ->
  stdout p = map Line ls ->
  Forall (fun l : pystr => l <> []) ls ->
  k < length ls ->
  frame_done (firstn (S k) ls) = true ->
  (forall j, j < k -> frame_done (firstn (S j) ls) = false) ->
  send {| process := Some p |} command args
  = (Return (decoded (concat (from_first_open (firstn (S k) ls)))),
     {| process := Some {| exited := false; write_fault := None;
                           stdout := map Line (skipn (S k) ls) |} |}).
Proof.
  intros Hp Hout Hne Hk Hd Hmin.
  assert (Hf : first_done [] ls = Some k)
    by (apply first_done_spec; repeat split; assumption).
  pose proof (read_loop_spec ls [] Hne) as Hr. rewrite Hf in Hr.
  cbn [app] in Hr.
  rewrite (send_on_live p command args _ Hp)
    by (rewrite Hout; exact Hr).
  cbn [lines unread response_text].
  assert (Ho : has_open (concat (firstn (S k) ls)) = true).
  { unfold frame_done in Hd. apply andb_true_iff in Hd. tauto. }
  pose proof (from_first_open_some _ Ho) as Hsome.
  destruct (from_first_open (firstn (S k) ls)); [congruence|reflexivity].
Qed.

(** X18.  Output without any [{] is dropped: when the worker's stream
    ends and no line that was read contains a [{], every line is discarded
    and [_send_command] returns the failure [No response from dex-editor],
    without calling the decoder. *)
Theorem send_without_brace_no_response (p : Process) (command : pystr)
    (args : option (list pystr)) (ls : list pystr) :
  live p ->
  stdout p = map Line ls ->
  Forall (fun l : pystr => l <> []) ls ->
  has_open (concat ls) = false ->
  send {| process := Some p |} command args
  = (Return (Failure JsonValue (py "No response from dex-editor")),
     {| process := Some {| exited := false; write_fault := None;
                           stdout := [] |} |}).
Proof.
  intros Hp Hout Hne Hno.
  assert (Hr : read_response (map Line ls)
               = Return {| lines := from_first_open ls; complete := false;
                           unread := [] |}).
  { apply read_response_incomplete; [assumption|].
    intros k _. unfold frame_done.
    rewrite has_open_firstn by assumption. reflexivity. }
  rewrite (send_on_live p command args _ Hp) by (rewrite Hout; exact Hr).
  cbn [lines unread]. rewrite from_first_open_closed by assumption.
  reflexivity.
Qed.

(** X19.  A response cut short is decoded all the same: when the stream
    ends after a [{] was read but before any line completed the response,
    [_send_command] hands the lines from the first [{] on to the decoder
    and returns what it makes of them. *)
Theorem send_decodes_truncated_response (p : Process) (command : pystr)
    (args : option (list pystr)) (ls : list pystr) :
  live p ->
  stdout p = map Line ls ->
  Forall (fun l : pystr => l <> []) ls ->
  has_open (concat ls) = true ->
  (forall k, k < length ls -> frame_done (firstn (S k) ls) = false) ->
  send {| process := Some p |} command args
  = (Return (decoded (concat (from_first_open ls))),
     {| process := Some {| exited := false; write_fault := None;
                           stdout := [] |} |}).
Proof.
  intros Hp Hout Hne Ho Hno.
  rewrite (send_on_live p command args _ Hp)
    by (rewrite Hout; apply read_response_incomplete; assumption).
  cbn [lines unread response_text].
  pose proof (from_first_open_some _ Ho) as Hsome.
  destruct (from_first_open ls); [congruence|reflexivity].
Qed.

End ExchangeFacts.

Section ExchangeWitnesses.
Import Bridge.

Lemma send_reads_one_response_witness :
  send_command dumps accept no_java
    {| process := Some (worker [py "log" ++ [NL]; py "{" ++ [NL];
                                py "}" ++ [NL]; py "next" ++ [NL]]) |}
    (py "open") None
  = (Return (Parsed (py "{" ++ [NL] ++ py "}" ++ [NL])),
     {| process := Some (worker [py "next" ++ [NL]]) |}).
Proof.
  refine (send_reads_one_response pystr dumps accept no_java
            (worker [py "log" ++ [NL]; py "{" ++ [NL]; py "}" ++ [NL];
                     py "next" ++ [NL]])
            (py "open") None
            [py "log" ++ [NL]; py "{" ++ [NL]; py "}" ++ [NL];
             py "next" ++ [NL]] 2 _ _ _ _ _ _).
  - split; reflexivity.
  - reflexivity.
  - repeat constructor; discriminate.
  - simpl; lia.
  - reflexivity.
  - intros j Hj. destruct j as [|[|j]]; [reflexivity | reflexivity | lia].
Defined.

Lemma send_without_brace_no_response_witness :
  send_command dumps accept no_java
    {| process := Some (worker [py "starting" ++ [NL]; py "bye" ++ [NL]]) |}
    (py "open") None
  = (Return (Failure pystr (py "No response from dex-editor")),
     {| process := Some (worker []) |}).
Proof.
  refine (send_without_brace_no_response pystr dumps accept no_java
            (worker [py "starting" ++ [NL]; py "bye" ++ [NL]])
            (py "open") None [py "starting" ++ [NL]; py "bye" ++ [NL]]
            _ _ _ _).
  - split; reflexivity.
  - reflexivity.
  - repeat constructor; discriminate.
  - reflexivity.
Defined.

Lemma send_decodes_truncated_response_witness :
  send_command dumps accept no_java
    {| process := Some (worker [py "{" ++ [NL]; py "x" ++ [NL]]) |}
    (py "open") None
  = (Return (Parsed (py "{" ++ [NL] ++ py "x" ++ [NL])),
     {| process := Some (worker []) |}).
Proof.
  refine (send_decodes_truncated_response pystr dumps accept no_java
            (worker [py "{" ++ [NL]; py "x" ++ [NL]])
            (py "open") None [py "{" ++ [NL]; py "x" ++ [NL]] _ _ _ _ _).
  - split; reflexivity.
  - reflexivity.
  - repeat constructor; discriminate.
  - reflexivity.
  - intros k Hk. destruct k as [|[|k]]; [reflexivity | reflexivity |].
    simpl in Hk; lia.
Defined.

End ExchangeWitnesses.

(** ** ProcessBridge: no exception once a worker is at hand *)

Section NoException.
Import Bridge.

Variable JsonValue : Type.
Variable json_dumps : pystr -> list pystr -> pystr.
Variable json_loads : pystr -> outcome JsonValue.
Variable popen : outcome Process.


End NoException.

